(** * MeshAdv-Mini installer scripts: privileged-operation core

    A shallow embedding of the non-GUI logic of the two installer
    front-ends

    - [meshtastic_configuration_tool.py]   (the Tk tool: apt lock recovery,
      retrying apt runner, SPI status probe), and
    - [meshtasticd_config_tool_V2.py]      (the GTK tool: [SystemManager],
      [StatusChecker], [ThreadManager], the boot-configuration edit
      procedures),

    together with the properties the specification states about them.

    Modelling conventions.

    - Python [str] is [string] (a byte string; text is assumed ASCII-compatible,
      and the universal-newline translation of text-mode pipes is not
      modelled).
    - The operating system is an interface [System]: a type of worlds and
      the effect of [subprocess.run], [os.path.exists], [open(..).read()],
      [time.sleep] and [datetime.now()] on them.  The Python code is
      written once over an arbitrary [System]; a small simulated system
      [Sim] instantiates it so that every definition can be run.
    - A Python function is a computation [M A]: it takes a world and
      yields a result (a value or a raised exception), the next world and
      the events it emitted (commands run with their outcome, sleeps, log
      records, GLib idle callbacks), in program order. *)

From Stdlib Require Import String Ascii List ZArith Bool Lia.
From stdpp Require Import base strings gmap list pretty.

Open Scope string_scope.
Open Scope list_scope.

(** ** Python string primitives *)

(** [needle in hay] on [str]. *)
Fixpoint contains (needle hay : string) : bool :=
  if String.prefix needle hay then true
  else match hay with
       | EmptyString => false
       | String _ rest => contains needle rest
       end.

(** [str.isspace] on one character, for the ASCII range. *)
Definition isspace (a : ascii) : bool :=
  let n := nat_of_ascii a in
  ((9 <=? n)%nat && (n <=? 13)%nat) || ((28 <=? n)%nat && (n <=? 32)%nat).

Fixpoint lstrip (s : string) : string :=
  match s with
  | EmptyString => EmptyString
  | String a rest => if isspace a then lstrip rest else s
  end.

Fixpoint rstrip (s : string) : string :=
  match s with
  | EmptyString => EmptyString
  | String a rest =>
      match rstrip rest with
      | EmptyString => if isspace a then EmptyString else String a EmptyString
      | t => String a t
      end
  end.

(** [s.strip()] *)
Definition strip (s : string) : string := rstrip (lstrip s).

(** Truthiness of a [str]: non-empty. *)
Definition truthy (s : string) : bool :=
  match s with EmptyString => false | _ => true end.

(** [repr] of a list of strings, as it appears in exception messages
    (no escaping of quotes inside the elements). *)
Definition repr_list (l : list string) : string :=
  "[" +:+ String.concat ", " (map (fun s => "'" +:+ s +:+ "'") l) +:+ "]".

(** ** subprocess *)

(** [subprocess.CompletedProcess] *)
Record CompletedProcess := mkCompleted {
  returncode : Z;
  stdout : string;
  stderr : string
}.

(** The arguments of one [subprocess.run] call that the system sees. *)
Record Call := mkCall {
  argv : list string;
  input : option string;
  timeout : option nat
}.

(** What the operating system does with a [subprocess.run] call: the child
    runs to completion, it is killed at the timeout, or it cannot be
    launched (FileNotFoundError, PermissionError: an [OSError] with its
    message). *)
Inductive RunOutcome :=
| Completed (r : CompletedProcess)
| TimedOut
| LaunchFailed (msg : string).

(** ** Exceptions *)

Inductive Exn :=
| TimeoutExpired (c : Call)
| OSError (msg : string)
| CalledProcessError (c : Call) (rc : Z)
| MeshtasticError (msg : string)
| ConfigurationError (msg : string).

(** [str(e)] *)
Definition str_exn (e : Exn) : string :=
  match e with
  | TimeoutExpired c =>
      "Command '" +:+ repr_list (argv c) +:+ "' timed out after " +:+
      match timeout c with Some t => pretty t | None => "None" end +:+ " seconds"
  | OSError msg => msg
  | CalledProcessError c rc =>
      "Command '" +:+ repr_list (argv c) +:+ "' returned non-zero exit status " +:+
      pretty rc +:+ "."
  | MeshtasticError msg => msg
  | ConfigurationError msg => msg
  end.

(** ** Events *)

Inductive Level := INFO | WARNING | ERROR.

Inductive Event :=
| EvRun (c : Call) (o : RunOutcome)      (* a subprocess.run call and its outcome *)
| EvSleep (secs : nat)                   (* time.sleep *)
| EvLog (l : Level) (msg : string)       (* logging.info / warning / error *)
| EvIdle (callback : string) (args : list string). (* GLib.idle_add *)

(** ** The operating system interface *)

Class System := mkSystem {
  World : Type;
  os_run : Call -> World -> RunOutcome * World;
  path_exists : string -> World -> bool;       (* os.path.exists *)
  file_read : string -> World -> option string; (* open(p, "r").read(); None: raises *)
  os_sleep : nat -> World -> World;
  timestamp : World -> string                  (* datetime.now().strftime('%Y%m%d_%H%M%S') *)
}.

(** ** Results and the computation monad *)

Inductive Res (A : Type) :=
| Ok (a : A)
| Raise (e : Exn).
Arguments Ok {A} a.
Arguments Raise {A} e.

Section Program.

Context `{System}.

Definition M (A : Type) : Type := World -> Res A * World * list Event.

Definition ret {A} (a : A) : M A := fun w => (Ok a, w, []).

Definition raise {A} (e : Exn) : M A := fun w => (Raise e, w, []).

Definition bind {A B} (m : M A) (k : A -> M B) : M B :=
  fun w =>
    match m w with
    | (Ok a, w1, t1) =>
        match k a w1 with
        | (r, w2, t2) => (r, w2, t1 ++ t2)
        end
    | (Raise e, w1, t1) => (Raise e, w1, t1)
    end.

(** [try: m  except Exception as e: h e]  (also the bare [except:]) *)
Definition try_except {A} (m : M A) (h : Exn -> M A) : M A :=
  fun w =>
    match m w with
    | (Ok a, w1, t1) => (Ok a, w1, t1)
    | (Raise e, w1, t1) =>
        match h e w1 with
        | (r, w2, t2) => (r, w2, t1 ++ t2)
        end
    end.

Definition emit (ev : Event) : M unit := fun w => (Ok tt, w, [ev]).

Definition logging (l : Level) (msg : string) : M unit := emit (EvLog l msg).

Definition idle_add (callback : string) (args : list string) : M unit :=
  emit (EvIdle callback args).

Definition sleep (secs : nat) : M unit :=
  fun w => (Ok tt, os_sleep secs w, [EvSleep secs]).

Definition exists_ (p : string) : M bool :=
  fun w => (Ok (path_exists p w), w, []).

Definition now_strftime : M string :=
  fun w => (Ok (timestamp w), w, []).

(** [subprocess.run(argv, input=.., timeout=.., check=..)] *)
Definition subprocess_run (c : Call) (check : bool) : M CompletedProcess :=
  fun w =>
    match os_run c w with
    | (Completed r, w1) =>
        if check && negb (returncode r =? 0)%Z
        then (Raise (CalledProcessError c (returncode r)), w1, [EvRun c (Completed r)])
        else (Ok r, w1, [EvRun c (Completed r)])
    | (TimedOut, w1) => (Raise (TimeoutExpired c), w1, [EvRun c TimedOut])
    | (LaunchFailed msg, w1) => (Raise (OSError msg), w1, [EvRun c (LaunchFailed msg)])
    end.

End Program.

Declare Scope prog_scope.
Delimit Scope prog_scope with prog.
Notation "x <- m ;; k" := (bind m (fun x => k))
  (at level 100, m at next level, right associativity) : prog_scope.
Notation "m ;;; k" := (bind m (fun _ => k))
  (at level 100, right associativity) : prog_scope.
Open Scope prog_scope.

(** The line feed, ["\n"]. *)
Definition nl : string := String (ascii_of_nat 10) EmptyString.

(** ** The Tk tool: [meshtastic_configuration_tool.py] *)

Module Tk.
Section Tk.

Context `{System}.

Definition BOOT_CONFIG_FILE : string := "/boot/firmware/config.txt".

(** *** [check_spi_status] *)

Definition check_spi_status (w : World) : bool :=
  let devices_exist :=
    path_exists "/dev/spidev0.0" w || path_exists "/dev/spidev0.1" w in
  let config_enabled :=
    match file_read BOOT_CONFIG_FILE w with
    | Some config_content =>
        let has_spi_param := contains "dtparam=spi=on" config_content in
        let has_spi_overlay := contains "dtoverlay=spi0-0cs" config_content in
        has_spi_param && has_spi_overlay
    | None => false                       (* except: pass *)
    end in
  devices_exist && config_enabled.

(** *** [check_and_fix_apt_locks] *)

Definition lock_files : list string :=
  [ "/var/lib/dpkg/lock";
    "/var/lib/dpkg/lock-frontend";
    "/var/cache/apt/archives/lock" ].

Definition audit_call : Call := mkCall ["sudo"; "dpkg"; "--audit"] None None.
Definition configure_call : Call :=
  mkCall ["sudo"; "dpkg"; "--configure"; "-a"] (Some ("n" +:+ nl)) (Some 60%nat).
Definition lsof_call (lock_file : string) : Call :=
  mkCall ["sudo"; "lsof"; lock_file] None None.
Definition killall_call : Call :=
  mkCall ["sudo"; "killall"; "-9"; "apt"; "apt-get"; "dpkg"] None None.
Definition rm_call (lock_file : string) : Call :=
  mkCall ["sudo"; "rm"; "-f"; lock_file] None None.

(** The holder check of the first loop: [lsof] exits 0 and prints
    something. *)
Definition reports_holder (result : CompletedProcess) : bool :=
  (returncode result =? 0)%Z && truthy (strip (stdout result)).

(** [for lock_file in lock_files: if os.path.exists(lock_file): try: ... except: pass] *)
Fixpoint scan_locks (files : list string) (locks_found : list string)
  : M (list string) :=
  match files with
  | [] => ret locks_found
  | lock_file :: rest =>
      present <- exists_ lock_file ;;
      locks_found' <-
        (if present : bool then
           try_except
             (result <- subprocess_run (lsof_call lock_file) false ;;
              if reports_holder result then
                logging WARNING
                  ("⚠️ Lock file " +:+ lock_file +:+ " is held by process") ;;;
                ret (locks_found ++ [lock_file])
              else ret locks_found)
             (fun _ => ret locks_found)
         else ret locks_found) ;;
      scan_locks rest locks_found'
  end.

(** [for lock_file in locks_found: try: ... except: pass] *)
Fixpoint remove_stale (locks_found : list string) : M unit :=
  match locks_found with
  | [] => ret tt
  | lock_file :: rest =>
      try_except
        (result <- subprocess_run (lsof_call lock_file) false ;;
         if negb (returncode result =? 0)%Z then   (* No process using the lock *)
           subprocess_run (rm_call lock_file) true ;;;
           logging INFO ("✅ Removed stale lock file: " +:+ lock_file)
         else ret tt)
        (fun _ => ret tt) ;;;
      remove_stale rest
  end.

Definition checking_msg : string := "Checking for apt lock issues...".

Definition check_and_fix_apt_locks : M bool :=
  try_except
    (logging INFO checking_msg ;;;
     result <- subprocess_run audit_call false ;;
     (if negb (returncode result =? 0)%Z || truthy (strip (stdout result)) then
        logging WARNING "⚠️ dpkg appears to be interrupted, attempting to fix..." ;;;
        result <- subprocess_run configure_call false ;;
        if (returncode result =? 0)%Z then
          logging INFO "✅ dpkg configuration completed"
        else
          logging WARNING ("⚠️ dpkg configure had issues: " +:+ stderr result)
      else ret tt) ;;;
     locks_found <- scan_locks lock_files [] ;;
     (match locks_found with
      | _ :: _ =>
          logging INFO "Attempting to kill apt-related processes..." ;;;
          subprocess_run killall_call false ;;;
          sleep 2 ;;;
          remove_stale locks_found
      | [] => ret tt
      end) ;;;
     ret true)
    (fun e =>
       logging ERROR ("Error checking/fixing apt locks: " +:+ str_exn e) ;;;
       ret false).

(** *** [safe_apt_command] *)

Definition max_retries : nat := 3.
Definition retry_delay : nat := 10.

(** How one iteration of the [for] loop ends. *)
Inductive Ctl (A : Type) :=
| Continue
| Return (a : A).
Arguments Continue {A}.
Arguments Return {A} a.

(** The lock-contention signature looked for in [result.stderr]. *)
Definition lock_error (result : CompletedProcess) : bool :=
  contains "Could not get lock" (stderr result) ||
  contains "dpkg was interrupted" (stderr result).

Definition apt_call (cmd_args : list string) (timeout : nat)
    (interactive_input : option string) : Call :=
  mkCall cmd_args
    (match interactive_input with
     | Some s => if truthy s then Some s else None
     | None => None
     end)
    (Some timeout).

(** The body of [for attempt in range(max_retries)]. *)
Definition attempt_body (cmd_args : list string) (timeout : nat)
    (interactive_input : option string) (attempt : nat)
  : M (Ctl (option CompletedProcess)) :=
  try_except
    ((if (0 <? attempt)%nat then
        logging INFO ("Retry attempt " +:+ pretty (attempt + 1)%nat +:+ "/" +:+
                      pretty max_retries +:+ " for apt command...") ;;;
        check_and_fix_apt_locks ;;;
        sleep retry_delay
      else ret tt) ;;;
     result <- subprocess_run (apt_call cmd_args timeout interactive_input) false ;;
     if lock_error result then
       if (attempt <? max_retries - 1)%nat then
         logging WARNING ("⚠️ Lock detected on attempt " +:+
                          pretty (attempt + 1)%nat +:+ ", will retry...") ;;;
         ret Continue
       else
         logging ERROR "❌ Failed to acquire apt lock after all retries" ;;;
         ret (Return (Some result))
     else ret (Return (Some result)))
    (fun e =>
       match e with
       | TimeoutExpired _ =>
           logging WARNING ("⚠️ Command timed out on attempt " +:+
                            pretty (attempt + 1)%nat) ;;;
           if (attempt <? max_retries - 1)%nat then
             subprocess_run killall_call false ;;;
             ret Continue
           else
             logging ERROR "❌ Command timed out after all retries" ;;;
             raise e
       | _ =>
           logging ERROR ("Error running apt command: " +:+ str_exn e) ;;;
           if (attempt <? max_retries - 1)%nat then ret Continue
           else raise e
       end).

Fixpoint for_attempts (cmd_args : list string) (timeout : nat)
    (interactive_input : option string) (attempts : list nat)
  : M (option CompletedProcess) :=
  match attempts with
  | [] => ret None                        (* after the loop: return None *)
  | attempt :: rest =>
      c <- attempt_body cmd_args timeout interactive_input attempt ;;
      match c with
      | Continue => for_attempts cmd_args timeout interactive_input rest
      | Return v => ret v
      end
  end.

Definition safe_apt_command (cmd_args : list string) (timeout : nat)
    (interactive_input : option string) : M (option CompletedProcess) :=
  for_attempts cmd_args timeout interactive_input (seq 0 max_retries).

(** *** [handle_enable_spi] and its worker *)

Definition spi_helper_call : Call :=
  mkCall ["sudo"; "raspi-config"; "nonint"; "do_spi"; "0"] None None.
Definition config_backup_call (config_file backup_file : string) : Call :=
  mkCall ["sudo"; "cp"; config_file; backup_file] None None.
Definition config_cat_call (config_file : string) : Call :=
  mkCall ["sudo"; "cat"; config_file] None None.
Definition config_tee_call (config_file config_content : string) : Call :=
  mkCall ["sudo"; "tee"; config_file] (Some config_content) None.

(** [self.root.after(0, callback)]: the callback is handed to the Tk main
    loop. *)
Definition root_after (callback : string) : M unit := emit (EvIdle callback []).

(** The [worker] closure of [handle_enable_spi]. *)
Definition enable_spi_worker : M unit :=
  try_except
    (subprocess_run spi_helper_call false ;;;
     let config_file := "/boot/firmware/config.txt" in
     stamp <- now_strftime ;;
     let backup_file := config_file +:+ ".backup_" +:+ stamp in
     subprocess_run (config_backup_call config_file backup_file) true ;;;
     logging INFO ("Backed up config.txt to " +:+ backup_file) ;;;
     result <- subprocess_run (config_cat_call config_file) true ;;
     let config_content := stdout result in
     let config_updated := false in
     st <-
       (if negb (contains "dtparam=spi=on" config_content) then
          logging INFO "Added SPI parameter to config.txt" ;;;
          ret (config_content +:+ nl +:+ "# SPI Configuration" +:+ nl +:+
               "dtparam=spi=on" +:+ nl, true)
        else ret (config_content, config_updated)) ;;
     let '(config_content, config_updated) := st in
     st <-
       (if negb (contains "dtoverlay=spi0-0cs" config_content) then
          let config_content :=
            if negb config_updated
            then config_content +:+ nl +:+ "# SPI Configuration" +:+ nl
            else config_content in
          logging INFO "Added SPI overlay to config.txt" ;;;
          ret (config_content +:+ "dtoverlay=spi0-0cs" +:+ nl, true)
        else ret (config_content, config_updated)) ;;
     let '(config_content, config_updated) := st in
     (if config_updated : bool then
        subprocess_run (config_tee_call config_file config_content) true ;;;
        logging INFO "SPI configuration updated in config.txt"
      else
        logging INFO "SPI configuration already present in config.txt") ;;;
     logging INFO "SPI configuration complete. Reboot may be required." ;;;
     root_after "update_status_indicators")
    (fun e => logging ERROR ("SPI configuration error: " +:+ str_exn e)).

(** [handle_enable_spi]: the result is the worker handed to
    [threading.Thread(..).start()], if any. *)
Definition handle_enable_spi : M (option (M unit)) :=
  enabled <- (fun w => (Ok (check_spi_status w), w, [])) ;;
  if enabled : bool then
    logging INFO "SPI is already enabled" ;;;
    ret None
  else
    logging INFO "Enabling SPI interface..." ;;;
    ret (Some enable_spi_worker).

End Tk.
End Tk.

(** ** The GTK tool: [meshtasticd_config_tool_V2.py] *)

Module V2.

(** [AppConfig] (the fields used here) *)
Definition DEFAULT_TIMEOUT : nat := 300.
Definition BOOT_CONFIG_FILE : string := "/boot/firmware/config.txt".

(** [OperationResult] *)
Record OperationResult := mkOperationResult {
  success : bool;
  message : string;
  details : string
}.

(** *** [ThreadManager] and [_run_operation_with_progress]

    The worker pool is [concurrent.futures.ThreadPoolExecutor] of the Python
    library, taken as follows: a submitted task starts at once when fewer
    than [max_workers] tasks are running and waits in the queue otherwise;
    when a task finishes the oldest waiting task starts.  The executor
    never refuses a task. *)

Definition max_workers : nat := 4.

Inductive FutureState := Pending | Running | Finished.

(** A submitted worker: the operation id it was submitted under and where
    it stands. *)
Record Future := mkFuture {
  operation_id : string;
  state : FutureState
}.

Record Orchestrator := mkOrchestrator {
  pool : list Future;               (* every task given to the executor, oldest first *)
  active_futures : list nat;        (* ThreadManager.active_futures, as indices in pool *)
  active_operations : gset string   (* the ids that have a progress dialog *)
}.

Definition initial : Orchestrator := mkOrchestrator [] [] ∅.

Definition is_running (f : Future) : bool :=
  match state f with Running => true | _ => false end.

Definition is_pending (f : Future) : bool :=
  match state f with Pending => true | _ => false end.

(** [f.done()] *)
Definition done (p : list Future) (i : nat) : bool :=
  match p !! i with
  | Some f => match state f with Finished => true | _ => false end
  | None => false
  end.

Definition running (p : list Future) : nat := length (List.filter is_running p).

(** The tasks of operation [id] that are running. *)
Definition running_as (id : string) (p : list Future) : nat :=
  length (List.filter (fun f => is_running f && String.eqb (operation_id f) id) p).

(** [executor.submit(worker)] *)
Definition executor_submit (id : string) (p : list Future) : list Future :=
  p ++ [mkFuture id (if (running p <? max_workers)%nat then Running else Pending)].

(** The first waiting task starts. *)
Fixpoint start_next (p : list Future) : list Future :=
  match p with
  | [] => []
  | f :: rest =>
      if is_pending f then mkFuture (operation_id f) Running :: rest
      else f :: start_next rest
  end.

(** The worker of future [i] returns (its operation succeeded, or failed
    and the error was handed to the error callback). *)
Definition complete (i : nat) (s : Orchestrator) : Orchestrator :=
  match pool s !! i with
  | Some f =>
      if is_running f then
        mkOrchestrator
          (start_next (<[i := mkFuture (operation_id f) Finished]> (pool s)))
          (active_futures s) (active_operations s)
      else s
  | None => s
  end.

(** The workers of the pool run next to the main thread: between two steps
    of [submit_task] any of them may return.  [finished] lists the futures
    whose worker returns, in that order. *)
Definition workers_return (finished : list nat) (s : Orchestrator) : Orchestrator :=
  fold_left (fun s i => complete i s) finished s.

(** [future = self.executor.submit(func, ...)] and
    [self.active_futures.append(future)] *)
Definition enqueue (id : string) (s : Orchestrator) : Orchestrator :=
  mkOrchestrator (executor_submit id (pool s))
    (active_futures s ++ [length (pool s)])
    (active_operations s).

(** [[f for f in self.active_futures if not f.done()]]: the futures are
    asked one after the other.  The head of [returns] lists the workers
    that return before the first future is asked (since the submission),
    its tail those that return before each of the next ones. *)
Fixpoint keep_not_done (returns : list (list nat)) (active : list nat)
    (s : Orchestrator) : list nat * Orchestrator :=
  match active with
  | [] => ([], s)
  | f :: rest =>
      let s := workers_return (hd [] returns) s in
      let is_done := done (pool s) f in
      let '(kept, s') := keep_not_done (tl returns) rest s in
      (if is_done then kept else f :: kept, s')
  end.

(** [ThreadManager.submit_task], with the workers that return while it
    runs; [returns = []] when none does. *)
Definition submit_task (id : string) (returns : list (list nat))
    (s : Orchestrator) : Orchestrator :=
  let s := enqueue id s in
  let '(kept, s') := keep_not_done returns (active_futures s) s in
  mkOrchestrator (pool s') kept (active_operations s').

(** [_run_operation_with_progress]: it wraps the operation in [worker] and
    hands it to the thread manager; it looks neither at [active_operations]
    nor at the futures already submitted. *)
Definition _run_operation_with_progress (operation_id : string)
    (returns : list (list nat)) (s : Orchestrator) : Orchestrator :=
  submit_task operation_id returns s.

(** [_show_progress_spinner], run by the GTK main loop. *)
Definition _show_progress_spinner (operation_id : string)
    (s : Orchestrator) : Orchestrator :=
  if bool_decide (operation_id ∈ active_operations s) then s
  else mkOrchestrator (pool s) (active_futures s)
         ({[operation_id]} ∪ active_operations s).

(** [_hide_progress_spinner], run by the GTK main loop. *)
Definition _hide_progress_spinner (operation_id : string)
    (s : Orchestrator) : Orchestrator :=
  if bool_decide (operation_id ∈ active_operations s) then
    mkOrchestrator (pool s) (active_futures s)
      (active_operations s ∖ {[operation_id]})
  else s.

Section V2.

Context `{System}.

(** *** [SystemManager] *)

(** [timeout or self.config.DEFAULT_TIMEOUT] *)
Definition timeout_or_default (timeout : option nat) : nat :=
  match timeout with
  | Some (Datatypes.S t) => Datatypes.S t
  | Some O | None => DEFAULT_TIMEOUT
  end.

Definition run_command (cmd : list string) (timeout : option nat)
    (input_text : option string) : M CompletedProcess :=
  let timeout := timeout_or_default timeout in
  try_except
    (result <- subprocess_run (mkCall cmd input_text (Some timeout)) false ;;
     ret result)
    (fun e =>
       match e with
       | TimeoutExpired _ =>
           raise (MeshtasticError ("Command timed out: " +:+ String.concat " " cmd))
       | _ =>
           raise (MeshtasticError ("Command failed: " +:+ str_exn e))
       end).

Definition run_sudo_command (cmd : list string) (timeout : option nat)
    (input_text : option string) : M CompletedProcess :=
  let sudo_cmd := ["sudo"] ++ cmd in
  run_command sudo_cmd timeout input_text.

Definition backup_file (filepath : string) : M string :=
  timestamp <- now_strftime ;;
  let backup_path := filepath +:+ ".backup_" +:+ timestamp in
  try_except
    (run_sudo_command ["cp"; filepath; backup_path] None None ;;;
     ret backup_path)
    (fun e =>
       raise (ConfigurationError
                ("Failed to backup " +:+ filepath +:+ ": " +:+ str_exn e))).

(** *** [StatusChecker.check_spi_status] *)

Definition check_spi_status (w : World) : bool :=
  let devices_exist :=
    path_exists "/dev/spidev0.0" w || path_exists "/dev/spidev0.1" w in
  let config_enabled :=
    match file_read BOOT_CONFIG_FILE w with
    | Some config_content =>
        let has_spi_param := contains "dtparam=spi=on" config_content in
        let has_spi_overlay := contains "dtoverlay=spi0-0cs" config_content in
        has_spi_param && has_spi_overlay
    | None => false                       (* except: pass *)
    end in
  devices_exist && config_enabled.

(** *** The boot-configuration edit procedures *)

Definition raspi_config (what : string) (value : string) : list string :=
  ["raspi-config"; "nonint"; what; value].

Definition spi_param : string := "dtparam=spi=on".
Definition spi_overlay : string := "dtoverlay=spi0-0cs".
Definition spi_header : string := nl +:+ "# SPI Configuration" +:+ nl.

Definition _enable_spi : M OperationResult :=
  try_except
    (logging INFO "Enabling SPI interface..." ;;;
     run_sudo_command (raspi_config "do_spi" "0") None None ;;;
     backup_path <- backup_file BOOT_CONFIG_FILE ;;
     logging INFO ("Backed up config.txt to " +:+ backup_path) ;;;
     result <- run_sudo_command ["cat"; BOOT_CONFIG_FILE] None None ;;
     let config_content := stdout result in
     let config_updated := false in
     st <-
       (if negb (contains spi_param config_content) then
          logging INFO "Added SPI parameter to config.txt" ;;;
          ret (config_content +:+ spi_header +:+ spi_param +:+ nl, true)
        else ret (config_content, config_updated)) ;;
     let '(config_content, config_updated) := st in
     st <-
       (if negb (contains spi_overlay config_content) then
          let config_content :=
            if negb config_updated then config_content +:+ spi_header
            else config_content in
          logging INFO "Added SPI overlay to config.txt" ;;;
          ret (config_content +:+ spi_overlay +:+ nl, true)
        else ret (config_content, config_updated)) ;;
     let '(config_content, config_updated) := st in
     (if config_updated : bool then
        run_sudo_command ["tee"; BOOT_CONFIG_FILE] None (Some config_content) ;;;
        logging INFO "SPI configuration updated in config.txt"
      else
        logging INFO "SPI configuration already present in config.txt") ;;;
     logging INFO "SPI configuration complete. Reboot may be required." ;;;
     ret (mkOperationResult true "SPI enabled successfully" ""))
    (fun e => raise (ConfigurationError ("SPI configuration failed: " +:+ str_exn e))).

Definition i2c_param : string := "dtparam=i2c_arm=on".
Definition i2c_block : string :=
  nl +:+ "# I2C Configuration" +:+ nl +:+ i2c_param +:+ nl.

Definition _enable_i2c : M OperationResult :=
  try_except
    (logging INFO "Enabling I2C interface..." ;;;
     run_sudo_command (raspi_config "do_i2c" "0") None None ;;;
     backup_path <- backup_file BOOT_CONFIG_FILE ;;
     logging INFO ("Backed up config.txt to " +:+ backup_path) ;;;
     result <- run_sudo_command ["cat"; BOOT_CONFIG_FILE] None None ;;
     let config_content := stdout result in
     (if negb (contains i2c_param config_content) then
        let config_content := config_content +:+ i2c_block in
        run_sudo_command ["tee"; BOOT_CONFIG_FILE] None (Some config_content) ;;;
        logging INFO "Added I2C ARM parameter to config.txt"
      else
        logging INFO "I2C ARM parameter already present in config.txt") ;;;
     logging INFO "I2C configuration complete. Reboot may be required." ;;;
     ret (mkOperationResult true "I2C enabled successfully" ""))
    (fun e => raise (ConfigurationError ("I2C configuration failed: " +:+ str_exn e))).

Definition meshadv_marker : string := "MeshAdv Mini Configuration".
Definition meshadv_config : string :=
  nl +:+ "# MeshAdv Mini Configuration" +:+ nl +:+
  "# GPIO 4 configuration - turn on at boot" +:+ nl +:+
  "gpio=4=op,dh" +:+ nl +:+
  nl +:+
  "# PPS configuration for GPS on GPIO 17" +:+ nl +:+
  "dtoverlay=pps-gpio,gpiopin=17" +:+ nl.

Definition _configure_meshadv_mini : M OperationResult :=
  try_except
    (logging INFO "Configuring MeshAdv Mini GPIO and PPS settings..." ;;;
     backup_path <- backup_file BOOT_CONFIG_FILE ;;
     logging INFO ("Backed up config.txt to " +:+ backup_path) ;;;
     result <- run_sudo_command ["cat"; BOOT_CONFIG_FILE] None None ;;
     let config_content := stdout result in
     (if negb (contains meshadv_marker config_content) then
        let config_content := config_content +:+ meshadv_config in
        run_sudo_command ["tee"; BOOT_CONFIG_FILE] None (Some config_content) ;;;
        logging INFO "MeshAdv Mini configuration added to config.txt" ;;;
        logging INFO "Reboot required for changes to take effect" ;;;
        idle_add "_show_info_dialog"
          ["Configuration Complete";
           "MeshAdv Mini configuration added." +:+ nl +:+
           "Reboot required for changes to take effect."]
      else
        logging INFO "MeshAdv Mini configuration already present") ;;;
     ret (mkOperationResult true "MeshAdv Mini configured successfully" ""))
    (fun e =>
       raise (ConfigurationError ("MeshAdv Mini configuration failed: " +:+ str_exn e))).

(** *** [SystemManager]: the package and service probes *)

Definition PKG_NAME : string := "meshtasticd".

Definition check_package_installed (package_name : string) : M bool :=
  try_except
    (result <- run_command ["dpkg"; "-l"; package_name] None None ;;
     ret ((returncode result =? 0)%Z && contains "ii" (stdout result)))
    (fun _ => ret false).

Definition check_service_enabled (service_name : string) : M bool :=
  try_except
    (result <- run_command ["systemctl"; "is-enabled"; service_name] None None ;;
     ret ((returncode result =? 0)%Z && String.eqb (strip (stdout result)) "enabled"))
    (fun _ => ret false).

Definition check_service_active (service_name : string) : M bool :=
  try_except
    (result <- run_command ["systemctl"; "is-active"; service_name] None None ;;
     ret ((returncode result =? 0)%Z && String.eqb (strip (stdout result)) "active"))
    (fun _ => ret false).

(** *** [HardwareDetector], as the status checks use it *)

Record HardwareDetector := mkHardware {
  pi_model : option string;
  hat_info : option (gmap string string)
}.

(** [self.pi_model and "Raspberry Pi 5" in self.pi_model], as a truth
    value. *)
Definition is_pi5 (hardware : HardwareDetector) : bool :=
  match pi_model hardware with
  | Some model => truthy model && contains "Raspberry Pi 5" model
  | None => false
  end.

(** *** [StatusChecker] *)

Definition check_meshtasticd_status : M bool :=
  try_except
    (dpkg_installed <- check_package_installed PKG_NAME ;;
     sbin <- exists_ "/usr/sbin/meshtasticd" ;;
     bin <- exists_ "/usr/bin/meshtasticd" ;;
     let binary_exists := sbin || bin in
     which_found <-
       try_except
         (result <- run_command ["which"; PKG_NAME] None None ;;
          ret (returncode result =? 0)%Z)
         (fun _ => ret false) ;;
     ret (dpkg_installed || binary_exists || which_found))
    (fun _ => ret false).

Definition check_i2c_status (w : World) : bool :=
  let devices_exist :=
    existsb (fun i : nat => path_exists ("/dev/i2c-" +:+ pretty i) w) (seq 0 10) in
  let config_enabled :=
    match file_read BOOT_CONFIG_FILE w with
    | Some config_content => contains "dtparam=i2c_arm=on" config_content
    | None => false                       (* except: pass *)
    end in
  devices_exist && config_enabled.

Definition check_gps_uart_status (hardware : HardwareDetector) (w : World) : bool :=
  match file_read BOOT_CONFIG_FILE w with
  | Some config_content =>
      let has_uart_enabled := contains "enable_uart=1" config_content in
      if is_pi5 hardware then
        let has_uart0_overlay := contains "dtoverlay=uart0" config_content in
        has_uart_enabled && has_uart0_overlay
      else has_uart_enabled
  | None => false                         (* except: return False *)
  end.

Definition check_hat_specific_status (hardware : HardwareDetector) (w : World) : bool :=
  match hat_info hardware with
  | None => false
  | Some info =>
      if bool_decide (info = ∅) ||
         negb (bool_decide (info !! "product" = Some "MeshAdv Mini"))
      then false
      else
        match file_read BOOT_CONFIG_FILE w with
        | Some config_content =>
            let has_gpio_config := contains "gpio=4=op,dh" config_content in
            let has_pps_config := contains "pps-gpio,gpiopin=17" config_content in
            has_gpio_config && has_pps_config
        | None => false                   (* except: return False *)
        end
  end.

Definition check_python_cli_status : M bool :=
  try_except
    (result <- run_command ["meshtastic"; "--version"] None None ;;
     ret (returncode result =? 0)%Z)
    (fun _ =>
       try_except
         (result <- run_command ["pipx"; "list"] None None ;;
          ret (contains "meshtastic" (stdout result)))
         (fun _ => ret false)).

Definition check_avahi_status : M bool :=
  try_except
    (avahi_installed <- check_package_installed "avahi-daemon" ;;
     if negb avahi_installed then ret false
     else
       let service_file := "/etc/avahi/services/meshtastic.service" in
       exists_ service_file)
    (fun _ => ret false).

Definition check_meshtasticd_boot_status : M bool := check_service_enabled PKG_NAME.

Definition check_meshtasticd_service_status : M bool := check_service_active PKG_NAME.

(** *** [handle_enable_spi] *)

(** The button handler: the orchestrator after the click, and what is
    logged. *)
Definition handle_enable_spi (w : World) (returns : list (list nat))
    (s : Orchestrator) : Orchestrator * list Event :=
  if check_spi_status w then (s, [EvLog INFO "SPI is already enabled"])
  else (_run_operation_with_progress "enable_spi" returns s, []).

(** *** The [worker] closure of [_run_operation_with_progress]

    What the pool thread runs.  A callback is given by its name; the
    result handed to the success callback is given by its message. *)
Definition worker (operation_id : string) (operation_func : M OperationResult)
    (progress_message : string) (success_callback error_callback : option string)
  : M unit :=
  try_except
    (idle_add "_show_progress_spinner" [operation_id; progress_message] ;;;
     result <- operation_func ;;
     idle_add "_hide_progress_spinner" [operation_id] ;;;
     match success_callback with
     | Some callback => idle_add callback [message result]
     | None => ret tt
     end)
    (fun e =>
       idle_add "_hide_progress_spinner" [operation_id] ;;;
       (match error_callback with
        | Some callback => idle_add callback [str_exn e]
        | None => idle_add "_show_error_dialog" ["Operation Failed"; str_exn e]
        end) ;;;
       logging ERROR ("Operation " +:+ operation_id +:+ " failed: " +:+ str_exn e)).

(** *** [_enable_gps_uart] *)

Definition uart_param : string := "enable_uart=1".
Definition uart_overlay : string := "dtoverlay=uart0".
Definition uart_header : string := nl +:+ "# GPS/UART Configuration" +:+ nl.

Definition _enable_gps_uart (hardware : HardwareDetector) : M OperationResult :=
  try_except
    (logging INFO "Enabling GPS/UART interface..." ;;;
     backup_path <- backup_file BOOT_CONFIG_FILE ;;
     logging INFO ("Backed up config.txt to " +:+ backup_path) ;;;
     result <- run_sudo_command ["cat"; BOOT_CONFIG_FILE] None None ;;
     let config_content := stdout result in
     let config_updated := false in
     st <-
       (if negb (contains uart_param config_content) then
          logging INFO "Added enable_uart=1 to config.txt" ;;;
          ret (config_content +:+ uart_header +:+ uart_param +:+ nl, true)
        else ret (config_content, config_updated)) ;;
     let '(config_content, config_updated) := st in
     st <-
       (if is_pi5 hardware && negb (contains uart_overlay config_content) then
          let config_content :=
            if negb config_updated then config_content +:+ uart_header
            else config_content in
          logging INFO "Added uart0 overlay for Pi 5 to config.txt" ;;;
          ret (config_content +:+ uart_overlay +:+ nl, true)
        else ret (config_content, config_updated)) ;;
     let '(config_content, config_updated) := st in
     (if config_updated : bool then
        run_sudo_command ["tee"; BOOT_CONFIG_FILE] None (Some config_content) ;;;
        logging INFO "GPS/UART configuration written to config.txt"
      else ret tt) ;;;
     logging INFO "Disabling serial console to prevent UART conflicts..." ;;;
     result <- run_sudo_command (raspi_config "do_serial_cons" "1") None None ;;
     (if (returncode result =? 0)%Z then
        logging INFO " Serial console disabled successfully"
      else
        logging WARNING " Failed to disable serial console") ;;;
     logging INFO "GPS/UART configuration complete. Reboot required." ;;;
     ret (mkOperationResult true "GPS/UART enabled successfully" ""))
    (fun e => raise (ConfigurationError ("GPS/UART configuration failed: " +:+ str_exn e))).

(** *** The service operations *)

Definition _enable_boot_service : M OperationResult :=
  try_except
    (logging INFO "Enabling meshtasticd to start on boot..." ;;;
     result <- run_sudo_command ["systemctl"; "enable"; PKG_NAME] None None ;;
     if (returncode result =? 0)%Z then
       logging INFO " meshtasticd enabled to start on boot" ;;;
       ret (mkOperationResult true "Boot service enabled" "")
     else
       raise (MeshtasticError ("Failed to enable boot service: " +:+ stderr result)))
    (fun e => raise (MeshtasticError ("Boot service configuration failed: " +:+ str_exn e))).

Definition _start_service : M OperationResult :=
  try_except
    (logging INFO "Starting meshtasticd service..." ;;;
     result <- run_sudo_command ["systemctl"; "start"; PKG_NAME] None None ;;
     if (returncode result =? 0)%Z then
       logging INFO " meshtasticd service started" ;;;
       ret (mkOperationResult true "Service started" "")
     else
       raise (MeshtasticError ("Failed to start service: " +:+ stderr result)))
    (fun e => raise (MeshtasticError ("Service start failed: " +:+ str_exn e))).

Definition _stop_service : M OperationResult :=
  try_except
    (logging INFO "Stopping meshtasticd service..." ;;;
     result <- run_sudo_command ["systemctl"; "stop"; PKG_NAME] None None ;;
     if (returncode result =? 0)%Z then
       logging INFO " meshtasticd service stopped" ;;;
       ret (mkOperationResult true "Service stopped" "")
     else
       raise (MeshtasticError ("Failed to stop service: " +:+ stderr result)))
    (fun e => raise (MeshtasticError ("Service stop failed: " +:+ str_exn e))).

End V2.
End V2.

(** ** A simulated system

    A small operating system on which the programs above run, for examples
    and counterexamples: a file system, the lock files held open, a
    clock, commands that are made to go wrong, and a script for the
    package manager. *)

Module Sim.

Record SimWorld := mkSim {
  files : gmap string string;      (* the paths that exist, with their text *)
  held : list string;              (* lock files some process holds open *)
  clock : string;                  (* the time, as strftime prints it *)
  faults : list (list string * RunOutcome);
                                   (* argv that go wrong: outcome, no effect *)
  script : list RunOutcome         (* what the next other commands do *)
}.

Definition exit_ok (out : string) : RunOutcome := Completed (mkCompleted 0 out "").
Definition exit_1 (err : string) : RunOutcome := Completed (mkCompleted 1 "" err).

Fixpoint fault_of (cmd : list string) (fs : list (list string * RunOutcome))
  : option RunOutcome :=
  match fs with
  | [] => None
  | (cmd', o) :: rest => if bool_decide (cmd = cmd') then Some o else fault_of cmd rest
  end.

(** Any command the simulation does not know: the next outcome of the
    script, success when the script is over. *)
Definition scripted (w : SimWorld) : RunOutcome * SimWorld :=
  match script w with
  | o :: rest => (o, mkSim (files w) (held w) (clock w) (faults w) rest)
  | [] => (exit_ok "", w)
  end.

Definition with_files (w : SimWorld) (fs : gmap string string) : SimWorld :=
  mkSim fs (held w) (clock w) (faults w) (script w).

Definition sudo (prog : string) (args : list string) (stdin : option string)
    (w : SimWorld) : RunOutcome * SimWorld :=
  if String.eqb prog "cp" then
    match args with
    | [src; dst] =>
        match files w !! src with
        | Some text => (exit_ok "", with_files w (<[dst := text]> (files w)))
        | None => (exit_1 ("cp: cannot stat '" +:+ src +:+ "'"), w)
        end
    | _ => (exit_1 "cp: missing file operand", w)
    end
  else if String.eqb prog "cat" then
    match args with
    | [p] =>
        match files w !! p with
        | Some text => (exit_ok text, w)
        | None => (exit_1 ("cat: " +:+ p +:+ ": No such file or directory"), w)
        end
    | _ => (exit_ok "", w)
    end
  else if String.eqb prog "tee" then
    match args with
    | [p] =>
        let text := default "" stdin in
        (exit_ok text, with_files w (<[p := text]> (files w)))
    | _ => (exit_ok (default "" stdin), w)
    end
  else if String.eqb prog "rm" then
    match args with
    | [_; p] => (exit_ok "", with_files w (delete p (files w)))
    | _ => (exit_ok "", w)
    end
  else if String.eqb prog "lsof" then
    match args with
    | [p] =>
        if bool_decide (p ∈ held w)
        then (exit_ok "COMMAND PID USER FD TYPE DEVICE SIZE/OFF NODE NAME", w)
        else (exit_1 "", w)
    | _ => (exit_1 "", w)
    end
  else if String.eqb prog "killall" then
    (exit_ok "", mkSim (files w) [] (clock w) (faults w) (script w))
  else if String.eqb prog "dpkg" then (exit_ok "", w)
  else if String.eqb prog "raspi-config" then (exit_ok "", w)
  else scripted w.

Definition run (c : Call) (w : SimWorld) : RunOutcome * SimWorld :=
  match fault_of (argv c) (faults w) with
  | Some o => (o, w)
  | None =>
      match argv c with
      | s :: prog :: args =>
          if String.eqb s "sudo" then sudo prog args (input c) w else scripted w
      | _ => scripted w
      end
  end.

Definition system : System := {|
  World := SimWorld;
  os_run := run;
  path_exists p w := bool_decide (is_Some (files w !! p));
  file_read p w := files w !! p;
  os_sleep _ w := w;
  timestamp := clock
|}.

End Sim.

(** * Observations

    What the properties below say about a run: its events, result and
    final state, and the readings of an event sequence they use. *)

Section Observations.

Context `{System}.

(** The events a computation emits from a world, its result, the world it
    leaves. *)
Definition trace_of {A} (m : M A) (w : World) : list Event := (m w).2.
Definition result_of {A} (m : M A) (w : World) : Res A := (m w).1.1.
Definition world_after {A} (m : M A) (w : World) : World := (m w).1.2.

(** A property of event sequences that holds of every trace of [m]. *)
Definition always {A} (P : list Event -> Prop) (m : M A) : Prop :=
  forall w, P (trace_of m w).

(** Properties that survive sequencing. *)
Class Sequential (P : list Event -> Prop) : Prop := {
  seq_nil : P [];
  seq_app : forall t1 t2, P t1 -> P t2 -> P (t1 ++ t2)
}.

(** A deletion: [sudo rm -f <path>]. *)
Definition is_rm (ev : Event) : bool :=
  match ev with
  | EvRun c _ =>
      match argv c with
      | ["sudo"; "rm"; "-f"; _] => true
      | _ => false
      end
  | _ => false
  end.

(** Every deletion in the sequence is the routine's [rm -f f] of some lock
    file [f] and comes directly after an [lsof f] that exited non-zero,
    that is, reported no process holding [f]. *)
Definition deletions_checked (tr : list Event) : Prop :=
  forall pre ev post,
    tr = pre ++ ev :: post ->
    is_rm ev = true ->
    exists pre' f o r,
      ev = EvRun (Tk.rm_call f) o /\
      pre = pre' ++ [EvRun (Tk.lsof_call f) (Completed r)] /\
      returncode r <> 0%Z.

(** The same, built up from the front: a sequence of events that are not
    deletions, and of pairs of a clear holder check and the deletion it
    allows. *)
Inductive Guarded : list Event -> Prop :=
| Guarded_nil : Guarded []
| Guarded_other ev tr :
    is_rm ev = false -> Guarded tr -> Guarded (ev :: tr)
| Guarded_rm f r o tr :
    returncode r <> 0%Z -> Guarded tr ->
    Guarded (EvRun (Tk.lsof_call f) (Completed r) :: EvRun (Tk.rm_call f) o :: tr).

(** A holder check or a deletion. *)
Definition is_lock_cmd (ev : Event) : bool :=
  match ev with
  | EvRun c _ =>
      match argv c with
      | ["sudo"; "lsof"; _] => true
      | ["sudo"; "rm"; "-f"; _] => true
      | _ => false
      end
  | _ => false
  end.

(** What the first loop leaves in [locks_found], in terms of its events. *)
Record ScanTrace (files found : list string) (tr : list Event) : Prop := {
  scan_no_rm : forall f o, ~ In (EvRun (Tk.rm_call f) o) tr;
  scan_files : forall f o, In (EvRun (Tk.lsof_call f) o) tr -> In f files;
  scan_found : forall f r,
    In (EvRun (Tk.lsof_call f) (Completed r)) tr ->
    Tk.reports_holder r = true -> In f found;
  scan_held : forall f, In f found ->
    exists r, In (EvRun (Tk.lsof_call f) (Completed r)) tr /\
              Tk.reports_holder r = true;
  scan_once : NoDup files -> forall f o1 o2,
    In (EvRun (Tk.lsof_call f) o1) tr -> In (EvRun (Tk.lsof_call f) o2) tr ->
    o1 = o2
}.

(** What the second loop does, in terms of its events. *)
Record StaleTrace (found : list string) (tr : list Event) : Prop := {
  stale_files : forall f o, In (EvRun (Tk.lsof_call f) o) tr -> In f found;
  stale_checked : forall f o,
    In (EvRun (Tk.rm_call f) o) tr ->
    exists r, In (EvRun (Tk.lsof_call f) (Completed r)) tr /\ returncode r <> 0%Z;
  stale_removed : forall f r,
    In (EvRun (Tk.lsof_call f) (Completed r)) tr -> returncode r <> 0%Z ->
    exists o, In (EvRun (Tk.rm_call f) o) tr
}.

(** The sequence has an [rm -f f]. *)
Definition deleted (f : string) (tr : list Event) : Prop :=
  exists o, In (EvRun (Tk.rm_call f) o) tr.

(** Some [lsof f] in the sequence exited 0 with output: a process holds [f]. *)
Definition found_held (f : string) (tr : list Event) : Prop :=
  exists r, In (EvRun (Tk.lsof_call f) (Completed r)) tr /\
            Tk.reports_holder r = true.

(** Some [lsof f] in the sequence exited non-zero: no process holds [f]. *)
Definition found_clear (f : string) (tr : list Event) : Prop :=
  exists r, In (EvRun (Tk.lsof_call f) (Completed r)) tr /\
            returncode r <> 0%Z.

(** The first statement of [check_and_fix_apt_locks] logs [checking_msg];
    nothing else does: the invocations of the routine are the occurrences of
    that record. *)
Definition is_recovery (ev : Event) : bool :=
  match ev with
  | EvLog INFO msg => (msg =? Tk.checking_msg)%string
  | _ => false
  end.

Definition recoveries (tr : list Event) : nat :=
  length (filter (fun ev => is_recovery ev = true) tr).

Definition no_recovery (tr : list Event) : Prop := recoveries tr = 0%nat.

(** The state in which a retry runs the command: after the recovery
    routine and the [retry_delay] sleep. *)
Definition recovered (w : World) : World :=
  os_sleep Tk.retry_delay (world_after Tk.check_and_fix_apt_locks w).

(** [run_sudo_command(cmd, input_text=..)] as the system sees it. *)
Definition sudo_call (cmd : list string) (input_text : option string) : Call :=
  mkCall ("sudo" :: cmd) input_text (Some V2.DEFAULT_TIMEOUT).

Definition cat_call : Call := sudo_call ["cat"; V2.BOOT_CONFIG_FILE] None.
Definition tee_call (content : string) : Call :=
  sudo_call ["tee"; V2.BOOT_CONFIG_FILE] (Some content).
Definition cp_call (stamp : string) : Call :=
  sudo_call ["cp"; V2.BOOT_CONFIG_FILE;
             V2.BOOT_CONFIG_FILE +:+ ".backup_" +:+ stamp] None.
Definition raspi_call (what : string) : Call :=
  sudo_call (V2.raspi_config what "0") None.

(** The run read [content] from the boot configuration file. *)
Definition reads (tr : list Event) (content : string) : Prop :=
  exists r, In (EvRun cat_call (Completed r)) tr /\ stdout r = content.

(** The texts the run sent to [tee /boot/firmware/config.txt], in order. *)
Fixpoint writes_of (tr : list Event) : list string :=
  match tr with
  | [] => []
  | EvRun c _ :: rest =>
      if bool_decide (argv c = ["sudo"; "tee"; V2.BOOT_CONFIG_FILE])
      then default "" (input c) :: writes_of rest
      else writes_of rest
  | _ :: rest => writes_of rest
  end.

(** The commands of a run, in order. *)
Fixpoint commands (tr : list Event) : list Call :=
  match tr with
  | [] => []
  | EvRun c _ :: rest => c :: commands rest
  | _ :: rest => commands rest
  end.

(** The text of the file after a run that read [content]: the last text
    written, or [content] itself when the run wrote nothing. *)
Definition content_after (content : string) (tr : list Event) : string :=
  default content (last (writes_of tr)).

(** The three edit procedures and what each looks for and adds. *)
Inductive Feature := SPI | I2C | MeshAdvMini.

Definition procedure (f : Feature) : M V2.OperationResult :=
  match f with
  | SPI => V2._enable_spi
  | I2C => V2._enable_i2c
  | MeshAdvMini => V2._configure_meshadv_mini
  end.

(** The marker substrings whose presence the procedure tests. *)
Definition markers (f : Feature) : list string :=
  match f with
  | SPI => [V2.spi_param; V2.spi_overlay]
  | I2C => [V2.i2c_param]
  | MeshAdvMini => [V2.meshadv_marker]
  end.

(** The commands the procedure runs before the backup. *)
Definition prelude (f : Feature) : list Call :=
  match f with
  | SPI => [raspi_call "do_spi"]
  | I2C => [raspi_call "do_i2c"]
  | MeshAdvMini => []
  end.

(** The record logged when nothing had to be added. *)
Definition present_msg (f : Feature) : string :=
  match f with
  | SPI => "SPI configuration already present in config.txt"
  | I2C => "I2C ARM parameter already present in config.txt"
  | MeshAdvMini => "MeshAdv Mini configuration already present"
  end.

(** The in-memory edit of each procedure on the text it read: the new
    [config_content], and whether it is to be written back. *)
Definition spi_edit (config_content : string) : string * bool :=
  let '(config_content, config_updated) :=
    if negb (contains V2.spi_param config_content)
    then (config_content +:+ V2.spi_header +:+ V2.spi_param +:+ nl, true)
    else (config_content, false) in
  if negb (contains V2.spi_overlay config_content)
  then ((if negb config_updated then config_content +:+ V2.spi_header
         else config_content) +:+ V2.spi_overlay +:+ nl, true)
  else (config_content, config_updated).

Definition i2c_edit (config_content : string) : string * bool :=
  if negb (contains V2.i2c_param config_content)
  then (config_content +:+ V2.i2c_block, true)
  else (config_content, false).

Definition meshadv_edit (config_content : string) : string * bool :=
  if negb (contains V2.meshadv_marker config_content)
  then (config_content +:+ V2.meshadv_config, true)
  else (config_content, false).

Definition edit (f : Feature) : string -> string * bool :=
  match f with
  | SPI => spi_edit
  | I2C => i2c_edit
  | MeshAdvMini => meshadv_edit
  end.

(** The state after running a list of commands one after the other. *)
Definition run_all (cs : list Call) (w : World) : World :=
  fold_left (fun w c => (os_run c w).2) cs w.

(** The two loops run nothing but holder checks and deletions. *)
Definition lock_only (tr : list Event) : Prop :=
  forall c o, In (EvRun c o) tr -> exists f, c = Tk.lsof_call f \/ c = Tk.rm_call f.

(** A command of the routine that is not inside a [try] of its own. *)
Definition unguarded (c : Call) : Prop :=
  c = Tk.audit_call \/ c = Tk.configure_call \/ c = Tk.killall_call.

(** The command did not run to completion: it could not be launched, or
    it timed out. *)
Definition aborted (o : RunOutcome) : Prop := forall r, o <> Completed r.

(** The status check that goes with each edit procedure. *)
Definition status (f : Feature) (hardware : V2.HardwareDetector) (w : World) : bool :=
  match f with
  | SPI => V2.check_spi_status w
  | I2C => V2.check_i2c_status w
  | MeshAdvMini => V2.check_hat_specific_status hardware w
  end.

(** What each status check asks of the system besides the text of the boot
    configuration: a device file, or the detected HAT. *)
Definition device_present (f : Feature) (hardware : V2.HardwareDetector)
    (w : World) : bool :=
  match f with
  | SPI => path_exists "/dev/spidev0.0" w || path_exists "/dev/spidev0.1" w
  | I2C => existsb (fun i : nat => path_exists ("/dev/i2c-" +:+ pretty i) w) (seq 0 10)
  | MeshAdvMini =>
      match V2.hat_info hardware with
      | Some info => bool_decide (info !! "product" = Some "MeshAdv Mini")
      | None => false
      end
  end.

(** [run_command(cmd)] as the system sees it. *)
Definition probe_call (cmd : list string) : Call :=
  mkCall cmd None (Some V2.DEFAULT_TIMEOUT).

Definition dpkg_call (package_name : string) : Call :=
  probe_call ["dpkg"; "-l"; package_name].
Definition which_call : Call := probe_call ["which"; V2.PKG_NAME].
Definition meshtastic_call : Call := probe_call ["meshtastic"; "--version"].
Definition pipx_call : Call := probe_call ["pipx"; "list"].

(** What [dpkg -l] and [which] tell, by their outcome. *)
Definition prints_installed (o : RunOutcome) : bool :=
  match o with
  | Completed r => (returncode r =? 0)%Z && contains "ii" (stdout r)
  | _ => false
  end.

Definition exits_ok (o : RunOutcome) : bool :=
  match o with
  | Completed r => (returncode r =? 0)%Z
  | _ => false
  end.

Inductive ServiceOp := EnableBoot | StartService | StopService.

Definition service_procedure (op : ServiceOp) : M V2.OperationResult :=
  match op with
  | EnableBoot => V2._enable_boot_service
  | StartService => V2._start_service
  | StopService => V2._stop_service
  end.

Definition systemctl_call (op : ServiceOp) : Call :=
  sudo_call
    ["systemctl";
     match op with
     | EnableBoot => "enable"
     | StartService => "start"
     | StopService => "stop"
     end;
     V2.PKG_NAME] None.

(** The message of the error raised on a non-zero exit status, before the
    error output of [systemctl]. *)
Definition refused_prefix (op : ServiceOp) : string :=
  match op with
  | EnableBoot => "Failed to enable boot service: "
  | StartService => "Failed to start service: "
  | StopService => "Failed to stop service: "
  end.

(** What the outer handler of the operation puts before the text of any
    error. *)
Definition failure_prefix (op : ServiceOp) : string :=
  match op with
  | EnableBoot => "Boot service configuration failed: "
  | StartService => "Service start failed: "
  | StopService => "Service stop failed: "
  end.

(** The in-memory edit of [_enable_gps_uart] on the text it read, on a
    Raspberry Pi 5 ([pi5]) or another model. *)
Definition gps_edit (pi5 : bool) (config_content : string) : string * bool :=
  let '(config_content, config_updated) :=
    if negb (contains V2.uart_param config_content)
    then (config_content +:+ V2.uart_header +:+ V2.uart_param +:+ nl, true)
    else (config_content, false) in
  if pi5 && negb (contains V2.uart_overlay config_content)
  then ((if negb config_updated then config_content +:+ V2.uart_header
         else config_content) +:+ V2.uart_overlay +:+ nl, true)
  else (config_content, config_updated).

Definition serial_call : Call :=
  sudo_call (V2.raspi_config "do_serial_cons" "1") None.

Definition show_event (operation_id progress_message : string) : Event :=
  EvIdle "_show_progress_spinner" [operation_id; progress_message].

Definition hide_event (operation_id : string) : Event :=
  EvIdle "_hide_progress_spinner" [operation_id].

(** What the worker hands to the main loop and logs once the operation
    has ended. *)
Definition report (operation_id : string)
    (success_callback error_callback : option string)
    (outcome : Res V2.OperationResult) : list Event :=
  match outcome with
  | Ok result =>
      match success_callback with
      | Some callback => [EvIdle callback [V2.message result]]
      | None => []
      end
  | Raise e =>
      [match error_callback with
       | Some callback => EvIdle callback [str_exn e]
       | None => EvIdle "_show_error_dialog" ["Operation Failed"; str_exn e]
       end;
       EvLog ERROR ("Operation " +:+ operation_id +:+ " failed: " +:+ str_exn e)]
  end.

End Observations.

(** ** Example states of the simulated system *)

Definition boot_config : string := "/boot/firmware/config.txt".

Definition lock_stderr : string :=
  "E: Could not get lock /var/lib/dpkg/lock-frontend. It is held by process 812 (apt)".

(** The package manager reports lock contention twice, then succeeds. *)
Definition w_apt : Sim.SimWorld :=
  Sim.mkSim ∅ [] "20240101_120000" []
    [Sim.exit_1 lock_stderr; Sim.exit_1 lock_stderr;
     Sim.exit_ok "Reading package lists..."].

(** A lock file is there and no process holds it. *)
Definition w_stale : Sim.SimWorld :=
  Sim.mkSim {[ "/var/lib/dpkg/lock" := "" ]} [] "20240101_120000" [] [].

(** A lock file is there and a process holds it. *)
Definition w_held : Sim.SimWorld :=
  Sim.mkSim {[ "/var/lib/dpkg/lock" := "" ]} ["/var/lib/dpkg/lock"]
    "20240101_120000" [] [].

(** A command that does not come back in time. *)
Definition w_hang : Sim.SimWorld :=
  Sim.mkSim ∅ [] "20240101_120000" [(["sleep"; "600"], TimedOut)] [].

(** SPI is configured, and only the second device file exists. *)
Definition w_spidev1 : Sim.SimWorld :=
  Sim.mkSim
    {[ "/dev/spidev0.1" := "";
       boot_config := "dtparam=spi=on" +:+ nl +:+ "dtoverlay=spi0-0cs" +:+ nl ]}
    [] "20240101_120000" [] [].

(** The boot configuration already has every directive of the three
    procedures. *)
Definition configured_text : string :=
  "dtparam=spi=on" +:+ nl +:+ "dtoverlay=spi0-0cs" +:+ nl +:+
  "dtparam=i2c_arm=on" +:+ nl +:+ "# MeshAdv Mini Configuration" +:+ nl.

Definition w_configured : Sim.SimWorld :=
  Sim.mkSim {[ boot_config := configured_text ]} [] "20240101_120000" [] [].

(** The boot configuration has none of them. *)
Definition fresh_text : string := "# boot" +:+ nl.

Definition w_fresh : Sim.SimWorld :=
  Sim.mkSim {[ boot_config := fresh_text ]} [] "20240101_120000" [] [].

(** The backup copy fails (the boot partition is full); everything else
    works. *)
Definition failing_cp : list string :=
  ["sudo"; "cp"; boot_config; boot_config +:+ ".backup_20240101_120000"].

Definition w_no_backup : Sim.SimWorld :=
  Sim.mkSim {[ boot_config := fresh_text ]} [] "20240101_120000"
    [(failing_cp, Sim.exit_1 "cp: error writing: No space left on device")] [].

(** The write fails; everything else works. *)
Definition w_no_write : Sim.SimWorld :=
  Sim.mkSim {[ boot_config := fresh_text ]} [] "20240101_120000"
    [(["sudo"; "tee"; boot_config], Sim.exit_1 "tee: /boot/firmware/config.txt: Input/output error")] [].

(** The read fails and prints nothing, on a boot configuration that has
    every directive; everything else works. *)
Definition read_error : string :=
  "cat: /boot/firmware/config.txt: Input/output error".

Definition w_unreadable : Sim.SimWorld :=
  Sim.mkSim {[ boot_config := configured_text ]} [] "20240101_120000"
    [(["sudo"; "cat"; boot_config], Sim.exit_1 read_error)] [].

(** The package manager fails for a reason that is not lock contention. *)
Definition missing_stderr : string := "E: Unable to locate package meshtasticd".

Definition w_apt_missing : Sim.SimWorld :=
  Sim.mkSim ∅ [] "20240101_120000" [] [Sim.exit_1 missing_stderr].

(** The package manager reports lock contention every time. *)
Definition w_apt_locked : Sim.SimWorld :=
  Sim.mkSim ∅ [] "20240101_120000" []
    [Sim.exit_1 lock_stderr; Sim.exit_1 lock_stderr; Sim.exit_1 lock_stderr].

(** The SPI edit has been written and the first device file is there. *)
Definition w_spi_done : Sim.SimWorld :=
  Sim.mkSim
    {[ "/dev/spidev0.0" := ""; boot_config := (spi_edit fresh_text).1 ]}
    [] "20240101_120000" [] [].

(** The MeshAdv Mini block has been written. *)
Definition w_meshadv_done : Sim.SimWorld :=
  Sim.mkSim {[ boot_config := (meshadv_edit fresh_text).1 ]}
    [] "20240101_120000" [] [].

(** Only the marker comment of the MeshAdv Mini block is in the file. *)
Definition marker_text : string := "# MeshAdv Mini Configuration" +:+ nl.

Definition w_marker_only : Sim.SimWorld :=
  Sim.mkSim {[ boot_config := marker_text ]} [] "20240101_120000" [] [].

(** A Raspberry Pi 5 with a MeshAdv Mini HAT. *)
Definition pi5_meshadv : V2.HardwareDetector :=
  V2.mkHardware (Some "Raspberry Pi 5 Model B Rev 1.0")
    (Some {[ "product" := "MeshAdv Mini" ]}).

(** The serial console cannot be disabled; everything else works. *)
Definition w_no_serial : Sim.SimWorld :=
  Sim.mkSim {[ boot_config := fresh_text ]} [] "20240101_120000"
    [(["sudo"; "raspi-config"; "nonint"; "do_serial_cons"; "1"],
      Sim.exit_1 "raspi-config: command failed")] [].

(** The GPS/UART edit for a Raspberry Pi 5 has been written. *)
Definition w_gps_done : Sim.SimWorld :=
  Sim.mkSim {[ boot_config := (gps_edit true fresh_text).1 ]}
    [] "20240101_120000" [] [].

(** * Properties *)

Section Properties.

Context `{System}.

(** ** Generic facts about computations *)

Lemma run_eta {A} (m : M A) (w : World) :
  m w = (result_of m w, world_after m w, trace_of m w).
Proof. unfold result_of, world_after, trace_of. by destruct (m w) as [[? ?] ?]. Qed.

Lemma trace_bind {A B} (m : M A) (k : A -> M B) (w : World) :
  trace_of (bind m k) w =
  trace_of m w ++
  match result_of m w with
  | Ok a => trace_of (k a) (world_after m w)
  | Raise _ => []
  end.
Proof.
  unfold trace_of, result_of, world_after, bind.
  destruct (m w) as [[[a|e] w1] t1]; simpl.
  - by destruct (k a w1) as [[? ?] ?].
  - by rewrite app_nil_r.
Qed.

Lemma trace_try_except {A} (m : M A) (h : Exn -> M A) (w : World) :
  trace_of (try_except m h) w =
  trace_of m w ++
  match result_of m w with
  | Ok _ => []
  | Raise e => trace_of (h e) (world_after m w)
  end.
Proof.
  unfold trace_of, result_of, world_after, try_except.
  destruct (m w) as [[[a|e] w1] t1]; simpl.
  - by rewrite app_nil_r.
  - by destruct (h e w1) as [[? ?] ?].
Qed.

Lemma always_ret {A} P `{!Sequential P} (a : A) : always P (ret a).
Proof. intros w. apply seq_nil. Qed.

Lemma always_raise {A} P `{!Sequential P} (e : Exn) : always P (raise (A:=A) e).
Proof. intros w. apply seq_nil. Qed.

Lemma always_exists P `{!Sequential P} (p : string) : always P (exists_ p).
Proof. intros w. apply seq_nil. Qed.

Lemma always_bind {A B} P `{!Sequential P} (m : M A) (k : A -> M B) :
  always P m -> (forall a, always P (k a)) -> always P (bind m k).
Proof.
  intros Hm Hk w. rewrite trace_bind. apply seq_app; [apply Hm|].
  destruct (result_of m w); [apply Hk | apply seq_nil].
Qed.

Lemma always_try_except {A} P `{!Sequential P} (m : M A) (h : Exn -> M A) :
  always P m -> (forall e, always P (h e)) -> always P (try_except m h).
Proof.
  intros Hm Hh w. rewrite trace_try_except. apply seq_app; [apply Hm|].
  destruct (result_of m w); [apply seq_nil | apply Hh].
Qed.

Lemma always_emit P (ev : Event) : P [ev] -> always P (emit ev).
Proof. intros HP w. exact HP. Qed.

Lemma always_sleep P (n : nat) : P [EvSleep n] -> always P (sleep n).
Proof. intros HP w. exact HP. Qed.

Lemma always_subprocess_run P (c : Call) (check : bool) :
  (forall o, P [EvRun c o]) -> always P (subprocess_run c check).
Proof.
  intros HP w. unfold trace_of, subprocess_run.
  destruct (os_run c w) as [[r| |msg] w1]; simpl; [|apply HP..].
  destruct (check && negb (returncode r =? 0)%Z); apply HP.
Qed.

(** ** Lock recovery: deletions are guarded by a holder check *)

Lemma Guarded_app t1 t2 : Guarded t1 -> Guarded t2 -> Guarded (t1 ++ t2).
Proof.
  induction 1; intros H2; simpl; [done| |].
  - apply Guarded_other; auto.
  - apply Guarded_rm; auto.
Qed.

#[local] Instance Guarded_sequential : Sequential Guarded.
Proof. split; [constructor | apply Guarded_app]. Qed.

Lemma Guarded_checked tr : Guarded tr -> deletions_checked tr.
Proof.
  induction 1 as [|ev tr Hev _ IH|f r o tr Hr _ IH]; intros pre ev' post Heq Hrm.
  - by destruct pre.
  - destruct pre as [|ev0 pre]; simplify_eq/=; [congruence|].
    destruct (IH _ _ _ eq_refl Hrm) as (pre' & g & o' & r & -> & -> & Hr).
    exists (ev0 :: pre'), g, o', r. done.
  - destruct pre as [|ev1 [|ev2 pre]]; simplify_eq/=.
    + exists [], f, o, r. done.
    + destruct (IH _ _ _ eq_refl Hrm) as (pre' & g & o' & r' & -> & -> & Hr').
      exists (EvRun (Tk.lsof_call f) (Completed r) :: EvRun (Tk.rm_call f) o :: pre'),
        g, o', r'.
      done.
Qed.

Lemma Guarded_single ev : is_rm ev = false -> Guarded [ev].
Proof. intros. apply Guarded_other; [done | constructor]. Qed.

Lemma remove_stale_guarded (locks_found : list string) :
  always Guarded (Tk.remove_stale locks_found).
Proof.
  induction locks_found as [|lock_file rest IH]; simpl.
  - apply always_ret; apply _.
  - apply always_bind; [apply _| |intros _; apply IH].
    intros w. unfold trace_of, try_except, bind, subprocess_run.
    destruct (os_run (Tk.lsof_call lock_file) w) as [[r| |msg] w1]; simpl;
      try (by apply Guarded_single).
    destruct (returncode r =? 0)%Z eqn:Hrc; simpl; [by apply Guarded_single|].
    assert (returncode r <> 0%Z) by (by apply Z.eqb_neq).
    destruct (os_run (Tk.rm_call lock_file) w1) as [[r'| |msg] w2]; simpl;
      try (by apply Guarded_rm; [|constructor]).
    destruct (returncode r' =? 0)%Z; simpl.
    + apply Guarded_rm; [done|]. by apply Guarded_single.
    + by apply Guarded_rm; [|constructor].
Qed.

Lemma scan_locks_guarded (files locks_found : list string) :
  always Guarded (Tk.scan_locks files locks_found).
Proof.
  revert locks_found.
  induction files as [|lock_file rest IH]; intros locks_found; simpl.
  - apply always_ret; apply _.
  - apply always_bind; [apply _|apply always_exists; apply _|].
    intros present. apply always_bind; [apply _| |intros; apply IH].
    destruct present; [|apply always_ret; apply _].
    apply always_try_except; [apply _| |intros; apply always_ret; apply _].
    apply always_bind; [apply _| |].
    + apply always_subprocess_run. intros o. by apply Guarded_single.
    + intros result. destruct (Tk.reports_holder result).
      * apply always_bind; [apply _| |intros; apply always_ret; apply _].
        apply always_emit. by apply Guarded_single.
      * apply always_ret; apply _.
Qed.

(** C3. [check_and_fix_apt_locks] never deletes a lock file without having
    just checked for a holder: in every run, from every state of the
    system, each deletion it issues is an [rm -f f] that comes directly
    after an [lsof f] whose exit status was non-zero (no process holds
    [f]). *)
Theorem check_and_fix_deletes_only_unheld (w : World) :
  deletions_checked (trace_of Tk.check_and_fix_apt_locks w).
Proof.
  apply Guarded_checked. revert w.
  change (always Guarded Tk.check_and_fix_apt_locks).
  unfold Tk.check_and_fix_apt_locks.
  apply always_try_except; [apply _| |].
  - apply always_bind; [apply _| |intros _].
    { apply always_emit. by apply Guarded_single. }
    apply always_bind; [apply _| |intros result].
    { apply always_subprocess_run. intros o. by apply Guarded_single. }
    apply always_bind; [apply _| |intros _].
    { destruct (_ || _); [|apply always_ret; apply _].
      apply always_bind; [apply _| |intros _].
      { apply always_emit. by apply Guarded_single. }
      apply always_bind; [apply _| |intros result'].
      { apply always_subprocess_run. intros o. by apply Guarded_single. }
      destruct (_ =? _)%Z; apply always_emit; by apply Guarded_single. }
    apply always_bind; [apply _|apply scan_locks_guarded|intros locks_found].
    apply always_bind; [apply _| |intros; apply always_ret; apply _].
    destruct locks_found; [apply always_ret; apply _|].
    apply always_bind; [apply _| |intros _].
    { apply always_emit. by apply Guarded_single. }
    apply always_bind; [apply _| |intros _].
    { apply always_subprocess_run. intros o. by apply Guarded_single. }
    apply always_bind; [apply _| |intros _].
    { apply always_sleep. by apply Guarded_single. }
    apply remove_stale_guarded.
  - intros e. apply always_bind; [apply _| |intros; apply always_ret; apply _].
    apply always_emit. by apply Guarded_single.
Qed.

(** ** Lock recovery: which lock files are deleted *)

Lemma ScanTrace_nil : ScanTrace [] [] [].
Proof. split; simpl; tauto. Qed.

Lemma ScanTrace_absent lock_file rest found tr :
  ScanTrace rest found tr -> ScanTrace (lock_file :: rest) found tr.
Proof.
  intros [Hrm Hfiles Hfound Hheld Honce]. split; simpl; eauto.
  intros Hnd. apply Honce. by inversion Hnd.
Qed.

Lemma ScanTrace_clear lock_file rest found tr o :
  (forall r, o = Completed r -> Tk.reports_holder r = false) ->
  ScanTrace rest found tr ->
  ScanTrace (lock_file :: rest) found (EvRun (Tk.lsof_call lock_file) o :: tr).
Proof.
  intros Ho [Hrm Hfiles Hfound Hheld Honce]. split; simpl.
  - intros f o' [?|?]; [done|]. by eapply Hrm.
  - intros f o' [?|?]; simplify_eq; eauto.
  - intros f r' [?|?] Hr; simplify_eq; eauto.
    rewrite (Ho r' eq_refl) in Hr. done.
  - intros f Hf. destruct (Hheld f Hf) as (r' & ? & ?). eauto.
  - intros Hnd f o1 o2 H1 H2. inversion Hnd as [|?? Hni Hnd']; subst.
    destruct H1 as [?|H1], H2 as [?|H2]; simplify_eq; eauto.
    + exfalso. apply Hni, list_elem_of_In. eauto.
    + exfalso. apply Hni, list_elem_of_In. eauto.
Qed.

Lemma ScanTrace_held lock_file rest found tr r l msg :
  Tk.reports_holder r = true ->
  ScanTrace rest found tr ->
  ScanTrace (lock_file :: rest) (lock_file :: found)
    (EvRun (Tk.lsof_call lock_file) (Completed r) :: EvLog l msg :: tr).
Proof.
  intros Hr [Hrm Hfiles Hfound Hheld Honce]. split; simpl.
  - intros f o [?|[?|?]]; [done|done|]. by eapply Hrm.
  - intros f o [?|[?|?]]; simplify_eq; eauto.
  - intros f r' [?|[?|?]] ?; simplify_eq; eauto.
  - intros f [<-|Hf]; [eauto|].
    destruct (Hheld f Hf) as (r' & ? & ?). eauto 6.
  - intros Hnd f o1 o2 H1 H2. inversion Hnd as [|?? Hni Hnd']; subst.
    destruct H1 as [?|[?|H1]], H2 as [?|[?|H2]]; simplify_eq; eauto.
    + exfalso. apply Hni, list_elem_of_In. eauto.
    + exfalso. apply Hni, list_elem_of_In. eauto.
Qed.

Lemma scan_locks_spec (files locks_found : list string) (w : World) :
  exists found,
    result_of (Tk.scan_locks files locks_found) w = Ok (locks_found ++ found) /\
    ScanTrace files found (trace_of (Tk.scan_locks files locks_found) w).
Proof.
  revert locks_found w.
  induction files as [|lock_file rest IH]; intros locks_found w.
  - exists []. rewrite app_nil_r. split; [done|apply ScanTrace_nil].
  - unfold result_of, trace_of in *. simpl.
    unfold bind, exists_, try_except, subprocess_run.
    destruct (path_exists lock_file w); simpl.
    2:{ destruct (IH locks_found w) as (found & Hres & Hs).
        destruct (Tk.scan_locks rest locks_found w) as [[res w'] t]; simpl in *.
        exists found. split; [done|]. by apply ScanTrace_absent. }
    destruct (os_run (Tk.lsof_call lock_file) w) as [[r| |msg] w1]; simpl.
    + destruct (Tk.reports_holder r) eqn:Hr; simpl.
      * destruct (IH (locks_found ++ [lock_file]) w1) as (found & Hres & Hs).
        destruct (Tk.scan_locks rest (locks_found ++ [lock_file]) w1) as [[res w'] t];
          simpl in *.
        exists (lock_file :: found). split.
        { rewrite Hres. by rewrite <- app_assoc. }
        by apply ScanTrace_held.
      * destruct (IH locks_found w1) as (found & Hres & Hs).
        destruct (Tk.scan_locks rest locks_found w1) as [[res w'] t]; simpl in *.
        exists found. split; [done|]. apply ScanTrace_clear; [|done].
        intros r' ?; by simplify_eq.
    + destruct (IH locks_found w1) as (found & Hres & Hs).
      destruct (Tk.scan_locks rest locks_found w1) as [[res w'] t]; simpl in *.
      exists found. split; [done|]. by apply ScanTrace_clear.
    + destruct (IH locks_found w1) as (found & Hres & Hs).
      destruct (Tk.scan_locks rest locks_found w1) as [[res w'] t]; simpl in *.
      exists found. split; [done|]. by apply ScanTrace_clear.
Qed.

Lemma StaleTrace_nil found : StaleTrace found [].
Proof. split; simpl; tauto. Qed.

Lemma StaleTrace_keep lock_file rest tr o :
  (forall r, o = Completed r -> returncode r = 0%Z) ->
  StaleTrace rest tr ->
  StaleTrace (lock_file :: rest) (EvRun (Tk.lsof_call lock_file) o :: tr).
Proof.
  intros Ho [Hfiles Hchk Hrm]. split; simpl.
  - intros f o' [?|?]; simplify_eq; eauto.
  - intros f o' [?|Hin]; [done|].
    destruct (Hchk _ _ Hin) as (r & ? & ?). eauto.
  - intros f r [?|Hin] Hr; simplify_eq.
    + by rewrite (Ho r eq_refl) in Hr.
    + destruct (Hrm _ _ Hin Hr) as [o' ?]. eauto.
Qed.

Lemma StaleTrace_remove lock_file rest tr r o (logs : list Event) :
  returncode r <> 0%Z ->
  Forall (fun ev => is_lock_cmd ev = false) logs ->
  StaleTrace rest tr ->
  StaleTrace (lock_file :: rest)
    (EvRun (Tk.lsof_call lock_file) (Completed r) ::
     EvRun (Tk.rm_call lock_file) o :: logs ++ tr).
Proof.
  intros Hr Hlogs [Hfiles Hchk Hrm].
  assert (Hquiet : forall ev, is_lock_cmd ev = true -> In ev (logs ++ tr) -> In ev tr).
  { intros ev Hev [Hin|Hin]%in_app_iff; [|done].
    rewrite Forall_forall in Hlogs. apply list_elem_of_In, Hlogs in Hin. congruence. }
  split; simpl.
  - intros f o' [?|[?|Hin]]; simplify_eq; eauto.
  - intros f o' [?|[?|Hin]]; simplify_eq; eauto.
    apply Hquiet in Hin; [|done].
    destruct (Hchk _ _ Hin) as (r' & ? & ?). exists r'. rewrite in_app_iff. eauto 6.
  - intros f r' [?|[?|Hin]] Hr'; simplify_eq; eauto.
    apply Hquiet in Hin; [|done].
    destruct (Hrm _ _ Hin Hr') as [o' ?]. exists o'. rewrite in_app_iff. eauto 6.
Qed.

Lemma remove_stale_spec (locks_found : list string) (w : World) :
  StaleTrace locks_found (trace_of (Tk.remove_stale locks_found) w).
Proof.
  revert w. induction locks_found as [|lock_file rest IH]; intros w.
  - apply StaleTrace_nil.
  - unfold trace_of in *. simpl. unfold bind, try_except, subprocess_run.
    destruct (os_run (Tk.lsof_call lock_file) w) as [[r| |msg] w1]; simpl.
    + destruct (returncode r =? 0)%Z eqn:Hrc; simpl.
      { specialize (IH w1). destruct (Tk.remove_stale rest w1) as [[res w'] t].
        apply StaleTrace_keep; [|done]. intros r' ?; simplify_eq.
        by apply Z.eqb_eq. }
      assert (returncode r <> 0%Z) by (by apply Z.eqb_neq).
      destruct (os_run (Tk.rm_call lock_file) w1) as [[r'| |msg] w2]; simpl.
      * destruct (returncode r' =? 0)%Z; simpl.
        -- specialize (IH w2). destruct (Tk.remove_stale rest w2) as [[res w'] t].
           simpl. by apply (StaleTrace_remove _ _ _ _ _ [_]); [|repeat constructor|].
        -- specialize (IH w2). destruct (Tk.remove_stale rest w2) as [[res w'] t].
           simpl. by apply (StaleTrace_remove _ _ _ _ _ []).
      * specialize (IH w2). destruct (Tk.remove_stale rest w2) as [[res w'] t].
        simpl. by apply (StaleTrace_remove _ _ _ _ _ []).
      * specialize (IH w2). destruct (Tk.remove_stale rest w2) as [[res w'] t].
        simpl. by apply (StaleTrace_remove _ _ _ _ _ []).
    + specialize (IH w1). destruct (Tk.remove_stale rest w1) as [[res w'] t].
      simpl. by apply StaleTrace_keep.
    + specialize (IH w1). destruct (Tk.remove_stale rest w1) as [[res w'] t].
      simpl. by apply StaleTrace_keep.
Qed.

Lemma lock_files_NoDup : NoDup Tk.lock_files.
Proof. apply (bool_decide_unpack _). by vm_compute. Qed.

Ltac quiet_run Hnone :=
  destruct Hnone as (found & ? & ? & ? & ? & -> & ->);
  exists found, [], []; split; [done|split; [done|]];
  intros ev Hev; simpl; split; [|tauto];
  intros Hin; repeat (destruct Hin as [Hin|Hin]); try done;
  subst ev; simpl in Hev; discriminate.

Ltac lock_events Hpre :=
  let ev := fresh "ev" in
  let Hev := fresh "Hev" in
  let Hin := fresh "Hin" in
  intros ev Hev; rewrite ?in_app_iff; simpl; rewrite ?in_app_iff; simpl;
  specialize (Hpre ev Hev); split; [|tauto];
  intros Hin; repeat (destruct Hin as [Hin|Hin]); try tauto;
  subst ev; simpl in Hev; discriminate.

(** The lock commands of a whole run are those of its two loops. *)
Lemma check_and_fix_lock_events (w : World) :
  exists found scan_tr stale_tr,
    ScanTrace Tk.lock_files found scan_tr /\
    StaleTrace found stale_tr /\
    forall ev, is_lock_cmd ev = true ->
      (In ev (trace_of Tk.check_and_fix_apt_locks w) <->
       In ev scan_tr \/ In ev stale_tr).
Proof.
  unfold trace_of, Tk.check_and_fix_apt_locks.
  pose proof (scan_locks_spec Tk.lock_files []) as Hscan.
  pose proof remove_stale_spec as Hstale.
  unfold trace_of, result_of in Hscan, Hstale.
  remember (Tk.scan_locks Tk.lock_files []) as scan eqn:Escan.
  remember Tk.remove_stale as stale eqn:Estale.
  clear Escan Estale.
  assert (Hnone : exists found scan_tr stale_tr,
             ScanTrace Tk.lock_files found scan_tr /\
             StaleTrace found stale_tr /\ scan_tr = [] /\ stale_tr = []).
  { exists [], [], []. split; [|split; [apply StaleTrace_nil|done]].
    split; simpl; tauto. }
  unfold try_except, bind, logging, emit, sleep, subprocess_run, ret. simpl.
  destruct (os_run Tk.audit_call w) as [[r| |msg] w1]; simpl;
    [|by quiet_run Hnone..].
  set (prelude := if negb (returncode r =? 0)%Z || truthy (strip (stdout r))
                  then _ else _).
  assert (Hprelude : Forall (fun ev => is_lock_cmd ev = false) (prelude w1).2).
  { subst prelude. destruct (_ || _); simpl; [|done].
    destruct (os_run Tk.configure_call w1) as [[r'| |msg] w2]; simpl;
      [destruct (returncode r' =? 0)%Z; simpl|..]; by repeat constructor. }
  assert (Hpre : forall ev, is_lock_cmd ev = true -> ~ In ev (prelude w1).2).
  { intros ev Hev Hin. rewrite Forall_forall in Hprelude.
    apply list_elem_of_In, Hprelude in Hin. congruence. }
  clear Hprelude.
  destruct (prelude w1) as [[[[]|e] w2] pt]; simpl in Hpre |- *.
  2:{ destruct Hnone as (found & ? & ? & ? & ? & -> & ->).
      exists found, [], []. split; [done|split; [done|]]. lock_events Hpre. }
  destruct (Hscan w2) as (found & Hres & HS).
  destruct (scan w2) as [[res w3] st]; simpl in *. subst res.
  destruct found as [|f found]; simpl.
  { exists [], st, []. split; [done|split; [apply StaleTrace_nil|]].
    lock_events Hpre. }
  destruct (os_run Tk.killall_call w3) as [[r'| |msg] w4]; simpl.
  - specialize (Hstale (f :: found) (os_sleep 2 w4)).
    destruct (stale (f :: found) (os_sleep 2 w4)) as [[[[]|e] w5] tt]; simpl in *;
      (exists (f :: found), st, tt; split; [done|split; [done|]]);
      lock_events Hpre.
  - exists (f :: found), st, []. split; [done|split; [apply StaleTrace_nil|]].
    lock_events Hpre.
  - exists (f :: found), st, []. split; [done|split; [apply StaleTrace_nil|]].
    lock_events Hpre.
Qed.

Lemma reports_holder_returncode r :
  Tk.reports_holder r = true -> returncode r = 0%Z.
Proof. unfold Tk.reports_holder. intros [? _]%andb_prop. by apply Z.eqb_eq. Qed.

(** C2 (amended). [check_and_fix_apt_locks] deletes a lock file [f] exactly
    when a holder check of [f] found it held (the first loop, which sends
    it to the kill-and-recheck branch) and a holder check of [f] found it
    clear (the check after [killall -9] and the two-second wait).  A lock
    file that no process holds when the routine looks at it is therefore
    left in place. *)
Theorem check_and_fix_deletes_iff (w : World) (f : string) :
  deleted f (trace_of Tk.check_and_fix_apt_locks w) <->
  found_held f (trace_of Tk.check_and_fix_apt_locks w) /\
  found_clear f (trace_of Tk.check_and_fix_apt_locks w).
Proof.
  destruct (check_and_fix_lock_events w) as (found & st & tt & HS & HT & Hev).
  destruct HS as [Hno_rm Hfiles Hfound Hheld Honce].
  destruct HT as [Hsfiles Hchecked Hremoved].
  pose proof lock_files_NoDup as Hnd. specialize (Honce Hnd).
  assert (Hlsof : forall o, In (EvRun (Tk.lsof_call f) o)
                              (trace_of Tk.check_and_fix_apt_locks w) <->
                            In (EvRun (Tk.lsof_call f) o) st \/
                            In (EvRun (Tk.lsof_call f) o) tt).
  { intros o. by apply Hev. }
  assert (Hrm : forall o, In (EvRun (Tk.rm_call f) o)
                            (trace_of Tk.check_and_fix_apt_locks w) <->
                          In (EvRun (Tk.rm_call f) o) st \/
                          In (EvRun (Tk.rm_call f) o) tt).
  { intros o. by apply Hev. }
  split.
  - intros [o [Hin|Hin]%Hrm]; [by apply Hno_rm in Hin|].
    destruct (Hchecked _ _ Hin) as (r & Hr & Hrc).
    split; [|exists r; rewrite Hlsof; eauto].
    destruct (Hheld f (Hsfiles _ _ Hr)) as (r' & ? & ?).
    exists r'. rewrite Hlsof. eauto.
  - intros [(r1 & Hin1 & Hr1) (r2 & Hin2 & Hr2)].
    apply Hlsof in Hin1, Hin2.
    destruct Hin2 as [Hin2|Hin2].
    + exfalso. destruct Hin1 as [Hin1|Hin1].
      * pose proof (Honce _ _ _ Hin1 Hin2) as Heq. simplify_eq.
        by apply reports_holder_returncode in Hr1.
      * destruct (Hheld f (Hsfiles _ _ Hin1)) as (r3 & Hin3 & Hr3).
        pose proof (Honce _ _ _ Hin3 Hin2) as Heq. simplify_eq.
        by apply reports_holder_returncode in Hr3.
    + destruct (Hremoved _ _ Hin2 Hr2) as [o Ho].
      exists o. rewrite Hrm. eauto.
Qed.

(** ** The retrying apt runner *)

Lemma recoveries_app t1 t2 : recoveries (t1 ++ t2) = (recoveries t1 + recoveries t2)%nat.
Proof. unfold recoveries. by rewrite filter_app, length_app. Qed.

Lemma recoveries_cons ev t :
  recoveries (ev :: t) = ((if is_recovery ev then 1 else 0) + recoveries t)%nat.
Proof.
  unfold recoveries. rewrite filter_cons.
  destruct (is_recovery ev); by case_decide.
Qed.

#[local] Instance no_recovery_sequential : Sequential no_recovery.
Proof.
  split; [done|]. unfold no_recovery. intros t1 t2 H1 H2.
  by rewrite recoveries_app, H1, H2.
Qed.

Ltac always_step :=
  first
    [ apply always_ret; apply _
    | apply always_raise; apply _
    | apply always_exists; apply _
    | apply always_emit
    | apply always_sleep
    | apply always_subprocess_run; intros ?
    | apply always_bind; [apply _| |intros ?]
    | apply always_try_except; [apply _| |intros ?]
    | match goal with
      | |- always _ (if ?b then _ else _) => destruct b
      | |- always _ (match ?l with [] => _ | _ :: _ => _ end) => destruct l
      end ].

Lemma scan_locks_no_recovery (files locks_found : list string) :
  always no_recovery (Tk.scan_locks files locks_found).
Proof.
  revert locks_found.
  induction files as [|lock_file rest IH]; intros locks_found; simpl.
  - always_step.
  - always_step; [always_step|]. always_step; [|apply IH].
    repeat always_step; done.
Qed.

Lemma remove_stale_no_recovery (locks_found : list string) :
  always no_recovery (Tk.remove_stale locks_found).
Proof.
  induction locks_found as [|lock_file rest IH]; simpl.
  - always_step.
  - always_step; [|apply IH]. repeat always_step; done.
Qed.

Lemma check_and_fix_recoveries (w : World) :
  recoveries (trace_of Tk.check_and_fix_apt_locks w) = 1%nat.
Proof.
  unfold Tk.check_and_fix_apt_locks.
  rewrite trace_try_except, trace_bind, !recoveries_app.
  change (recoveries (trace_of (logging INFO Tk.checking_msg) w)) with 1%nat.
  change (result_of (logging INFO Tk.checking_msg) w) with (Ok (A:=unit) tt).
  match goal with
  | |- context [trace_of ?k (world_after (logging INFO Tk.checking_msg) w)] =>
      assert (Hrest : always no_recovery k)
  end.
  { repeat first [ apply scan_locks_no_recovery
                 | apply remove_stale_no_recovery
                 | always_step ]; done. }
  rewrite Hrest. destruct (result_of _ w); [done|]. reflexivity.
Qed.

Lemma check_and_fix_total (w : World) :
  exists b, result_of Tk.check_and_fix_apt_locks w = Ok b.
Proof.
  unfold result_of, Tk.check_and_fix_apt_locks, try_except.
  match goal with |- context [?body w] => destruct (body w) as [[[b|e] w1] t] end;
    simpl; eauto.
Qed.

(** C1. With its three attempts, when the command reports lock contention
    on attempts 1 and 2 and not on attempt 3, [safe_apt_command] returns
    the result of attempt 3 and has invoked [check_and_fix_apt_locks]
    exactly twice. *)
Theorem safe_apt_command_third_attempt
    (cmd_args : list string) (timeout : nat) (interactive_input : option string)
    (w0 w1 w2 w3 : World) (r1 r2 r3 : CompletedProcess) :
  os_run (Tk.apt_call cmd_args timeout interactive_input) w0 = (Completed r1, w1) ->
  Tk.lock_error r1 = true ->
  os_run (Tk.apt_call cmd_args timeout interactive_input) (recovered w1)
    = (Completed r2, w2) ->
  Tk.lock_error r2 = true ->
  os_run (Tk.apt_call cmd_args timeout interactive_input) (recovered w2)
    = (Completed r3, w3) ->
  Tk.lock_error r3 = false ->
  Tk.max_retries = 3%nat /\
  result_of (Tk.safe_apt_command cmd_args timeout interactive_input) w0
    = Ok (Some r3) /\
  world_after (Tk.safe_apt_command cmd_args timeout interactive_input) w0 = w3 /\
  recoveries (trace_of (Tk.safe_apt_command cmd_args timeout interactive_input) w0)
    = 2%nat.
Proof.
  intros H1 L1 H2 L2 H3 L3. split; [done|].
  unfold recovered in *.
  pose proof check_and_fix_recoveries as Hrec.
  pose proof check_and_fix_total as Htot.
  unfold result_of, world_after, trace_of in *.
  unfold Tk.safe_apt_command, Tk.max_retries, seq, Tk.for_attempts, Tk.attempt_body.
  remember Tk.check_and_fix_apt_locks as caf eqn:E. clear E.
  unfold bind, try_except, subprocess_run, sleep, logging, emit, ret.
  simpl. rewrite H1. simpl. rewrite L1. simpl.
  destruct (Htot w1) as [b1 Hb1]. pose proof (Hrec w1) as Hc1.
  destruct (caf w1) as [[res1 w1'] t1]. simpl in *. subst res1.
  rewrite H2. simpl. rewrite L2. simpl.
  destruct (Htot w2) as [b2 Hb2]. pose proof (Hrec w2) as Hc2.
  destruct (caf w2) as [[res2 w2'] t2]. simpl in *. subst res2.
  rewrite H3. simpl. rewrite L3. simpl.
  split; [done|split; [done|]].
  repeat first [rewrite recoveries_app | rewrite recoveries_cons].
  rewrite Hc1, Hc2. reflexivity.
Qed.

Lemma prefix_app (m a b : string) :
  String.prefix m a = true -> String.prefix m (a +:+ b) = true.
Proof.
  revert a. induction m as [|x m IH]; intros a.
  - intros _. by destruct (a +:+ b).
  - destruct a as [|y a]; simpl; [done|].
    destruct (Ascii.ascii_dec x y); [apply IH|done].
Qed.

Lemma contains_cons (m : string) (y : ascii) (a : string) :
  contains m (String y a) = String.prefix m (String y a) || contains m a.
Proof. cbn [contains]. by destruct (String.prefix m (String y a)). Qed.

Lemma contains_app_l (m a b : string) :
  contains m a = true -> contains m (a +:+ b) = true.
Proof.
  induction a as [|y a IH].
  - simpl. destruct m; [intros _|done]. by destruct b.
  - change ((String y a) +:+ b) with (String y (a +:+ b)).
    rewrite !contains_cons. intros [Hp|Hc]%orb_prop; apply orb_true_iff.
    + left. exact (prefix_app _ _ b Hp).
    + right. by apply IH.
Qed.

Lemma contains_app_r (m a b : string) :
  contains m b = true -> contains m (a +:+ b) = true.
Proof.
  intros Hc. induction a as [|y a IH]; [done|].
  change ((String y a) +:+ b) with (String y (a +:+ b)).
  rewrite contains_cons, IH. apply orb_true_r.
Qed.

Lemma append_assoc (a b c : string) : (a +:+ b) +:+ c = a +:+ (b +:+ c).
Proof.
  induction a as [|x a IH]; [done|].
  change (String x ((a +:+ b) +:+ c) = String x (a +:+ (b +:+ c))). by rewrite IH.
Qed.

(** ** The boot-configuration edit procedures, observed *)

Ltac os_cases :=
  repeat match goal with
         | E : os_run ?c ?w = _ |- context [os_run ?c ?w] =>
             rewrite E; simpl
         | |- context [os_run ?c ?w] =>
             is_var w;
             let E := fresh "Hrun" in
             destruct (os_run c w) as [[?| |?] ?] eqn:E; simpl
         end.

Ltac contains_cases :=
  repeat match goal with
         | |- context [contains ?m ?c] =>
             let E := fresh "Hin" in
             destruct (contains m c) eqn:E; simpl
         end.

(** The one [cat] of a run fixes what it read. *)
Ltac read_inv Hr :=
  simpl in Hr;
  repeat (destruct Hr as [Hr|Hr]; [try discriminate Hr|]);
  try (exfalso; exact Hr);
  simplify_eq.

Ltac unfold_v2 :=
  unfold trace_of, result_of, world_after,
    V2._enable_spi, V2._enable_i2c, V2._configure_meshadv_mini,
    V2.backup_file, V2.run_sudo_command, V2.run_command,
    try_except, bind, subprocess_run, logging, idle_add, emit, ret, raise,
    now_strftime, raspi_call, cp_call, cat_call, tee_call, sudo_call.

Ltac run_cases := repeat (progress (os_cases; contains_cases)).

Ltac use_contains :=
  repeat match goal with
         | E : contains _ _ = _ |- _ => rewrite !E; clear E
         end.

Lemma procedure_writes (f : Feature) (w : World) (c : string) :
  reads (trace_of (procedure f) w) c ->
  writes_of (trace_of (procedure f) w) =
  if (edit f c).2 then [(edit f c).1] else [].
Proof.
  destruct f; simpl.
  all: unfold reads; unfold_v2; simpl; run_cases.
  all: intros (r' & Hr & <-).
  all: read_inv Hr.
  all: unfold spi_edit, i2c_edit, meshadv_edit;
    use_contains; simpl; use_contains; reflexivity.
Qed.

(** A procedure changes the system only through the commands it runs. *)
Lemma procedure_frame (f : Feature) (w : World) :
  world_after (procedure f) w = run_all (commands (trace_of (procedure f) w)) w.
Proof.
  destruct f; simpl.
  all: unfold run_all; unfold_v2; simpl; run_cases.
  all: reflexivity.
Qed.

Lemma procedure_unchanged (f : Feature) (w : World) (c : string) :
  reads (trace_of (procedure f) w) c ->
  (edit f c).2 = false ->
  commands (trace_of (procedure f) w) =
    prelude f ++ [cp_call (timestamp (run_all (prelude f) w)); cat_call] /\
  In (EvLog INFO (present_msg f)) (trace_of (procedure f) w) /\
  exists res, result_of (procedure f) w = Ok res /\ V2.success res = true.
Proof.
  destruct f; simpl.
  all: unfold reads, run_all; unfold_v2; simpl; run_cases.
  all: intros (r' & Hr & <-).
  all: read_inv Hr.
  all: unfold spi_edit, i2c_edit, meshadv_edit;
    use_contains; simpl; use_contains; simpl; try discriminate.
  all: intros _; split; [reflexivity|split; [tauto|eauto]].
Qed.

(** *** The in-memory edits *)

Lemma append_nil_r (a : string) : a +:+ "" = a.
Proof.
  induction a as [|x a IH]; [done|].
  change (String x (a +:+ "") = String x a). by rewrite IH.
Qed.

(** An edit only appends, and what it appends holds no marker that was
    already there. *)
Lemma edit_extends (f : Feature) (c : string) :
  exists block,
    (edit f c).1 = c +:+ block /\
    forall m, In m (markers f) -> contains m c = true -> contains m block = false.
Proof.
  destruct f; simpl; unfold spi_edit, i2c_edit, meshadv_edit.
  - destruct (contains V2.spi_param c) eqn:Hp; simpl.
    + destruct (contains V2.spi_overlay c) eqn:Ho; simpl.
      * exists "". rewrite append_nil_r. split; [done|].
        intros m [<-|[<-|[]]] _; reflexivity.
      * exists (V2.spi_header +:+ V2.spi_overlay +:+ nl).
        rewrite append_assoc. split; [done|].
        intros m [<-|[<-|[]]] Hm; [reflexivity|congruence].
    + destruct (contains V2.spi_overlay
                  (c +:+ V2.spi_header +:+ V2.spi_param +:+ nl)) eqn:Ho; simpl.
      * exists (V2.spi_header +:+ V2.spi_param +:+ nl). split; [done|].
        intros m [<-|[<-|[]]] Hm; [congruence|reflexivity].
      * exists ((V2.spi_header +:+ V2.spi_param +:+ nl) +:+ V2.spi_overlay +:+ nl).
        rewrite append_assoc. split; [done|].
        intros m [<-|[<-|[]]] Hm; [congruence|].
        apply (contains_app_l _ _ (V2.spi_header +:+ V2.spi_param +:+ nl)) in Hm.
        congruence.
  - destruct (contains V2.i2c_param c) eqn:Hp; simpl.
    + exists "". rewrite append_nil_r. split; [done|].
      intros m [<-|[]] _; reflexivity.
    + exists V2.i2c_block. split; [done|]. intros m [<-|[]] Hm; congruence.
  - destruct (contains V2.meshadv_marker c) eqn:Hp; simpl.
    + exists "". rewrite append_nil_r. split; [done|].
      intros m [<-|[]] _; reflexivity.
    + exists V2.meshadv_config. split; [done|]. intros m [<-|[]] Hm; congruence.
Qed.

(** With every marker there, an edit changes nothing. *)
Lemma edit_present (f : Feature) (c : string) :
  (forall m, In m (markers f) -> contains m c = true) ->
  edit f c = (c, false).
Proof.
  intros Hall.
  destruct f; simpl in *; unfold spi_edit, i2c_edit, meshadv_edit.
  - rewrite (Hall V2.spi_param) by tauto. simpl.
    by rewrite (Hall V2.spi_overlay) by tauto.
  - by rewrite (Hall V2.i2c_param) by tauto.
  - by rewrite (Hall V2.meshadv_marker) by tauto.
Qed.

(** After an edit every marker is there. *)
Lemma edit_complete (f : Feature) (c : string) (m : string) :
  In m (markers f) -> contains m (edit f c).1 = true.
Proof.
  destruct f; simpl; unfold spi_edit, i2c_edit, meshadv_edit.
  - intros [<-|[<-|[]]].
    + destruct (contains V2.spi_param c) eqn:Hp; simpl.
      * destruct (contains V2.spi_overlay c) eqn:Ho; simpl; [done|].
        by apply contains_app_l, contains_app_l.
      * assert (contains V2.spi_param
                  (c +:+ V2.spi_header +:+ V2.spi_param +:+ nl) = true) as Hp'
          by (by apply contains_app_r).
        destruct (contains V2.spi_overlay
                    (c +:+ V2.spi_header +:+ V2.spi_param +:+ nl));
          simpl; [done|].
        by apply contains_app_l.
    + destruct (contains V2.spi_param c) eqn:Hp; simpl.
      * destruct (contains V2.spi_overlay c) eqn:Ho; simpl; [done|].
        by apply contains_app_r.
      * destruct (contains V2.spi_overlay
                    (c +:+ V2.spi_header +:+ V2.spi_param +:+ nl)) eqn:Ho;
          simpl; [done|].
        by apply contains_app_r.
  - intros [<-|[]]. destruct (contains V2.i2c_param c) eqn:Hp; simpl; [done|].
    by apply contains_app_r.
  - intros [<-|[]]. destruct (contains V2.meshadv_marker c) eqn:Hp; simpl; [done|].
    by apply contains_app_r.
Qed.

(** An edit that is not to be written back left the text as it was. *)
Lemma edit_unchanged (f : Feature) (c : string) :
  (edit f c).2 = false -> (edit f c).1 = c.
Proof.
  destruct f; simpl; unfold spi_edit, i2c_edit, meshadv_edit.
  - destruct (contains V2.spi_param c); simpl.
    + destruct (contains V2.spi_overlay c); simpl; done.
    + destruct (contains V2.spi_overlay
                  (c +:+ V2.spi_header +:+ V2.spi_param +:+ nl)); simpl; done.
  - destruct (contains V2.i2c_param c); simpl; done.
  - destruct (contains V2.meshadv_marker c); simpl; done.
Qed.

Lemma content_after_edit (f : Feature) (w : World) (c : string) :
  reads (trace_of (procedure f) w) c ->
  content_after c (trace_of (procedure f) w) = (edit f c).1.
Proof.
  intros Hr. unfold content_after. rewrite (procedure_writes f w c Hr).
  destruct (edit f c).2 eqn:E; simpl; [done|].
  symmetry. by apply edit_unchanged.
Qed.

Lemma run_all_preserves {X} (obs : World -> X) (cs : list Call) (w : World) :
  (forall call w', In call cs -> obs (os_run call w').2 = obs w') ->
  obs (run_all cs w) = obs w.
Proof.
  unfold run_all. revert w. induction cs as [|c cs IH]; intros w Hcs; [done|].
  simpl. rewrite IH; [apply Hcs; by left|].
  intros call w' Hin. apply Hcs. by right.
Qed.

(** X25. A directive whose marker is in the text a procedure read (the
    output of its [cat]) is never appended again: whatever the procedure
    writes is the text it read followed by a block that holds no marker
    that was present.  When every marker of the procedure is in the text
    read it writes nothing, logs that the configuration is already present
    ([config_updated] is false), reports success, and leaves the file as
    it is provided the commands it did run (the helper, the backup copy,
    the read) do not touch it. *)
Theorem present_directives_left_alone (f : Feature) (w : World) (c : string) :
  reads (trace_of (procedure f) w) c ->
  (forall c', In c' (writes_of (trace_of (procedure f) w)) ->
     exists block,
       c' = c +:+ block /\
       forall m, In m (markers f) -> contains m c = true ->
                 contains m block = false) /\
  ((forall m, In m (markers f) -> contains m c = true) ->
     writes_of (trace_of (procedure f) w) = [] /\
     content_after c (trace_of (procedure f) w) = c /\
     In (EvLog INFO (present_msg f)) (trace_of (procedure f) w) /\
     (exists res, result_of (procedure f) w = Ok res /\ V2.success res = true) /\
     forall path,
       (forall call w',
          In call (prelude f ++
                   [cp_call (timestamp (run_all (prelude f) w)); cat_call]) ->
          file_read path (os_run call w').2 = file_read path w') ->
       file_read path (world_after (procedure f) w) = file_read path w).
Proof.
  intros Hr. split.
  - rewrite (procedure_writes f w c Hr).
    destruct (edit_extends f c) as (block & Hblock & Hm).
    destruct (edit f c).2; intros c' Hc'; [|done].
    destruct Hc' as [<-|[]]. eauto.
  - intros Hall. pose proof (edit_present f c Hall) as He.
    assert ((edit f c).2 = false) as He2 by (by rewrite He).
    destruct (procedure_unchanged f w c Hr He2) as (Hcmds & Hlog & Hres).
    rewrite (content_after_edit f w c Hr), (procedure_writes f w c Hr), He. simpl.
    repeat split; try done.
    intros path Hframe. rewrite procedure_frame, Hcmds.
    by apply run_all_preserves.
Qed.


(** Whatever the file holds, once the command before the backup has
    completed the backup copy is run. *)
Lemma backup_follows_prelude (f : Feature) (w : World) :
  (forall call, In call (prelude f) ->
                exists r, (os_run call w).1 = Completed r) ->
  exists o,
    In (EvRun (cp_call (timestamp (run_all (prelude f) w))) o)
       (trace_of (procedure f) w).
Proof.
  destruct f; simpl; intros Hpre.
  1,2: (destruct (Hpre _ (or_introl eq_refl)) as [r0 Hr0]; revert Hr0).
  all: clear Hpre; unfold run_all; unfold_v2; simpl; run_cases.
  all: try (intros Hr0; discriminate Hr0).
  all: try intros _.
  all: eexists; simpl; eauto 10.
Qed.


(** C4 (amended). [run_command] returns the completed process, whatever
    its exit status, when the command launches and finishes in time; it
    raises [MeshtasticError] both when the command cannot be launched and
    when it times out, and the time-out is told apart by the message
    "Command timed out: ..." of the exception, not by a returned result. *)
Theorem run_command_outcome
    (cmd : list string) (timeout : option nat) (input_text : option string)
    (w : World) :
  match (os_run (mkCall cmd input_text (Some (V2.timeout_or_default timeout))) w).1 with
  | Completed r =>
      result_of (V2.run_command cmd timeout input_text) w = Ok r
  | TimedOut =>
      result_of (V2.run_command cmd timeout input_text) w =
      Raise (MeshtasticError ("Command timed out: " +:+ String.concat " " cmd))
  | LaunchFailed msg =>
      result_of (V2.run_command cmd timeout input_text) w =
      Raise (MeshtasticError ("Command failed: " +:+ msg))
  end.
Proof.
  unfold result_of, V2.run_command, try_except, bind, subprocess_run, ret, raise.
  destruct (os_run _ w) as [[r| |msg] w1]; reflexivity.
Qed.

(** C8 (amended). The SPI status is true exactly when one of the two
    device files [/dev/spidev0.0], [/dev/spidev0.1] exists and the boot
    configuration can be read and contains both ["dtparam=spi=on"] and
    ["dtoverlay=spi0-0cs"]; the two tools agree. *)
Theorem check_spi_status_iff (w : World) :
  (V2.check_spi_status w = true <->
   (path_exists "/dev/spidev0.0" w = true \/ path_exists "/dev/spidev0.1" w = true) /\
   exists config_content,
     file_read V2.BOOT_CONFIG_FILE w = Some config_content /\
     contains "dtparam=spi=on" config_content = true /\
     contains "dtoverlay=spi0-0cs" config_content = true) /\
  Tk.check_spi_status w = V2.check_spi_status w.
Proof.
  split; [|reflexivity].
  unfold V2.check_spi_status.
  rewrite andb_true_iff, orb_true_iff.
  destruct (file_read V2.BOOT_CONFIG_FILE w) as [config_content|].
  - rewrite andb_true_iff. split.
    + intros [? [? ?]]. eauto.
    + intros [? (c' & ? & ? & ?)]. by simplify_eq.
  - split; [by intros [_ ?]|]. by intros [_ (c' & ? & _)].
Qed.

(** ** The retrying apt runner, on every path *)

Lemma result_bind {A B} (m : M A) (k : A -> M B) (w : World) :
  result_of (bind m k) w =
  match result_of m w with
  | Ok a => result_of (k a) (world_after m w)
  | Raise e => Raise e
  end.
Proof.
  unfold result_of, world_after, bind.
  destruct (m w) as [[[a|e] w1] t1]; simpl; [|done].
  by destruct (k a w1) as [[? ?] ?].
Qed.

Lemma world_bind {A B} (m : M A) (k : A -> M B) (w : World) :
  world_after (bind m k) w =
  match result_of m w with
  | Ok a => world_after (k a) (world_after m w)
  | Raise e => world_after m w
  end.
Proof.
  unfold result_of, world_after, bind.
  destruct (m w) as [[[a|e] w1] t1]; simpl; [|done].
  by destruct (k a w1) as [[? ?] ?].
Qed.

Ltac os_any :=
  repeat match goal with
         | |- context [os_run ?c ?w] =>
             destruct (os_run c w) as [[?| |?] ?]; simpl
         end.

(** An iteration of the loop never ends the function with [None]. *)
Lemma attempt_body_some (cmd_args : list string) (timeout : nat)
    (interactive_input : option string) (attempt : nat) (w : World) :
  result_of (Tk.attempt_body cmd_args timeout interactive_input attempt) w
    <> Ok (Tk.Return _ None).
Proof.
  unfold result_of, Tk.attempt_body.
  remember Tk.check_and_fix_apt_locks as caf eqn:E. clear E.
  unfold try_except, bind, subprocess_run, sleep, logging, emit, ret, raise.
  destruct (0 <? attempt)%nat, (attempt <? Tk.max_retries - 1)%nat; simpl.
  all: try (destruct (caf w) as [[[b|e] w1] t1]; simpl).
  all: os_any; try done.
  all: try (destruct (Tk.lock_error _); simpl); try done.
  all: try (destruct e; simpl; os_any; done).
Qed.

(** The last iteration returns or raises: it never asks for another one. *)
Lemma attempt_body_last (cmd_args : list string) (timeout : nat)
    (interactive_input : option string) (attempt : nat) (w : World) :
  (attempt <? Tk.max_retries - 1)%nat = false ->
  result_of (Tk.attempt_body cmd_args timeout interactive_input attempt) w
    <> Ok (Tk.Continue _).
Proof.
  intros Hlast. unfold result_of, Tk.attempt_body. rewrite Hlast.
  remember Tk.check_and_fix_apt_locks as caf eqn:E. clear E.
  unfold try_except, bind, subprocess_run, sleep, logging, emit, ret, raise.
  destruct (0 <? attempt)%nat; simpl.
  all: try (destruct (caf w) as [[[b|e] w1] t1]; simpl).
  all: os_any; try done.
  all: try (destruct (Tk.lock_error _); simpl); try done.
  all: try (destruct e; simpl; os_any; done).
Qed.

(** X1. [safe_apt_command] never returns [None]: from every state and for
    every command, it either raises or returns the completed process of an
    attempt.  The [return None] after the loop is not reached. *)
Theorem safe_apt_command_never_none
    (cmd_args : list string) (timeout : nat) (interactive_input : option string)
    (w : World) :
  result_of (Tk.safe_apt_command cmd_args timeout interactive_input) w <> Ok None.
Proof.
  unfold Tk.safe_apt_command. change (seq 0 Tk.max_retries) with [0; 1; 2]%nat.
  cbn [Tk.for_attempts].
  pose proof (attempt_body_some cmd_args timeout interactive_input) as Hsome.
  pose proof (attempt_body_last cmd_args timeout interactive_input 2) as Hlast.
  remember (Tk.attempt_body cmd_args timeout interactive_input) as body eqn:E.
  clear E. rewrite result_bind.
  destruct (result_of (body 0%nat) w) as [[|v]|e] eqn:E0; [| |done].
  2:{ intros Hv. injection Hv as ->. by eapply Hsome. }
  rewrite result_bind.
  destruct (result_of (body 1%nat) _) as [[|v]|e] eqn:E1; [| |done].
  2:{ intros Hv. injection Hv as ->. by eapply Hsome. }
  rewrite result_bind.
  destruct (result_of (body 2%nat) _) as [[|v]|e] eqn:E2; [| |done].
  - exfalso. by eapply Hlast.
  - intros Hv. injection Hv as ->. by eapply Hsome.
Qed.

(** X2. When the first attempt completes without the lock-contention
    signature in its error output, [safe_apt_command] returns that result
    whatever its exit status, having run the command once and done nothing
    else: no recovery, no wait, no log record. *)
Theorem safe_apt_command_first_attempt
    (cmd_args : list string) (timeout : nat) (interactive_input : option string)
    (w0 w1 : World) (r : CompletedProcess) :
  os_run (Tk.apt_call cmd_args timeout interactive_input) w0 = (Completed r, w1) ->
  Tk.lock_error r = false ->
  Tk.safe_apt_command cmd_args timeout interactive_input w0 =
    (Ok (Some r), w1,
     [EvRun (Tk.apt_call cmd_args timeout interactive_input) (Completed r)]).
Proof.
  intros Hrun Hlock.
  unfold Tk.safe_apt_command, Tk.max_retries, seq, Tk.for_attempts, Tk.attempt_body.
  unfold bind, try_except, subprocess_run, ret. simpl.
  rewrite Hrun. simpl. rewrite Hlock. reflexivity.
Qed.

(** X3. When the command reports lock contention on all three attempts,
    [safe_apt_command] does not raise: it returns the result of the third
    attempt, has invoked [check_and_fix_apt_locks] twice, and its last log
    record is the error about the lock. *)
Theorem safe_apt_command_exhausted
    (cmd_args : list string) (timeout : nat) (interactive_input : option string)
    (w0 w1 w2 w3 : World) (r1 r2 r3 : CompletedProcess) :
  os_run (Tk.apt_call cmd_args timeout interactive_input) w0 = (Completed r1, w1) ->
  Tk.lock_error r1 = true ->
  os_run (Tk.apt_call cmd_args timeout interactive_input) (recovered w1)
    = (Completed r2, w2) ->
  Tk.lock_error r2 = true ->
  os_run (Tk.apt_call cmd_args timeout interactive_input) (recovered w2)
    = (Completed r3, w3) ->
  Tk.lock_error r3 = true ->
  result_of (Tk.safe_apt_command cmd_args timeout interactive_input) w0
    = Ok (Some r3) /\
  world_after (Tk.safe_apt_command cmd_args timeout interactive_input) w0 = w3 /\
  recoveries (trace_of (Tk.safe_apt_command cmd_args timeout interactive_input) w0)
    = 2%nat /\
  last (trace_of (Tk.safe_apt_command cmd_args timeout interactive_input) w0)
    = Some (EvLog ERROR "❌ Failed to acquire apt lock after all retries").
Proof.
  intros H1 L1 H2 L2 H3 L3.
  unfold recovered in *.
  pose proof check_and_fix_recoveries as Hrec.
  pose proof check_and_fix_total as Htot.
  unfold result_of, world_after, trace_of in *.
  unfold Tk.safe_apt_command, Tk.max_retries, seq, Tk.for_attempts, Tk.attempt_body.
  remember Tk.check_and_fix_apt_locks as caf eqn:E. clear E.
  unfold bind, try_except, subprocess_run, sleep, logging, emit, ret.
  simpl. rewrite H1. simpl. rewrite L1. simpl.
  destruct (Htot w1) as [b1 Hb1]. pose proof (Hrec w1) as Hc1.
  destruct (caf w1) as [[res1 w1'] t1]. simpl in *. subst res1.
  rewrite H2. simpl. rewrite L2. simpl.
  destruct (Htot w2) as [b2 Hb2]. pose proof (Hrec w2) as Hc2.
  destruct (caf w2) as [[res2 w2'] t2]. simpl in *. subst res2.
  rewrite H3. simpl. rewrite L3. simpl.
  split; [done|split; [done|split]].
  - repeat first [rewrite recoveries_app | rewrite recoveries_cons].
    rewrite Hc1, Hc2. reflexivity.
  - repeat first [rewrite last_cons | rewrite last_app]. reflexivity.
Qed.

(** Only a retry invokes the recovery routine, and it does so once. *)
Lemma attempt_body_recoveries (cmd_args : list string) (timeout : nat)
    (interactive_input : option string) (attempt : nat) (w : World) :
  recoveries (trace_of (Tk.attempt_body cmd_args timeout interactive_input attempt) w)
  = if (0 <? attempt)%nat then 1%nat else 0%nat.
Proof.
  pose proof check_and_fix_recoveries as Hrec.
  pose proof check_and_fix_total as Htot.
  unfold result_of, trace_of in *. unfold Tk.attempt_body.
  remember Tk.check_and_fix_apt_locks as caf eqn:E. clear E.
  unfold try_except, bind, subprocess_run, sleep, logging, emit, ret, raise.
  destruct (0 <? attempt)%nat, (attempt <? Tk.max_retries - 1)%nat; simpl.
  all: try (destruct (Htot w) as [b Hb]; pose proof (Hrec w) as Hc;
            destruct (caf w) as [[res w1] t1]; simpl in *; subst res; simpl).
  all: os_any.
  all: try (destruct (Tk.lock_error _); simpl).
  all: repeat first [rewrite recoveries_app | rewrite recoveries_cons]; simpl.
  all: rewrite ?Hc; reflexivity.
Qed.

(** X4. However the attempts go, one call of [safe_apt_command] invokes
    [check_and_fix_apt_locks] at most twice: never before the first
    attempt, once before each retry. *)
Theorem safe_apt_command_recoveries_bounded
    (cmd_args : list string) (timeout : nat) (interactive_input : option string)
    (w : World) :
  (recoveries (trace_of (Tk.safe_apt_command cmd_args timeout interactive_input) w)
   <= 2)%nat.
Proof.
  unfold Tk.safe_apt_command. change (seq 0 Tk.max_retries) with [0; 1; 2]%nat.
  cbn [Tk.for_attempts].
  pose proof (attempt_body_recoveries cmd_args timeout interactive_input) as Hrec.
  remember (Tk.attempt_body cmd_args timeout interactive_input) as body eqn:E.
  clear E.
  assert (Hret : forall (v : option CompletedProcess) w', recoveries (trace_of (ret v) w') = 0%nat)
    by done.
  rewrite trace_bind, recoveries_app, (Hrec 0%nat). simpl.
  destruct (result_of (body 0%nat) w) as [[|v]|e]; rewrite ?Hret; [|unfold recoveries; simpl; lia..].
  rewrite trace_bind, recoveries_app, (Hrec 1%nat). simpl.
  destruct (result_of (body 1%nat) _) as [[|v]|e]; rewrite ?Hret; [|unfold recoveries; simpl; lia..].
  rewrite trace_bind, recoveries_app, (Hrec 2%nat). simpl.
  destruct (result_of (body 2%nat) _) as [[|v]|e]; rewrite ?Hret; unfold recoveries; simpl; lia.
Qed.

(** ** The recovery routine: when it reports failure, when it kills *)

#[local] Instance lock_only_sequential : Sequential lock_only.
Proof.
  split; [by intros c o []|].
  intros t1 t2 H1 H2 c o [Hin|Hin]%in_app_iff; eauto.
Qed.

Lemma lock_only_log l msg : lock_only [EvLog l msg].
Proof. intros c o [?|[]]. discriminate. Qed.

Lemma lock_only_lsof f o : lock_only [EvRun (Tk.lsof_call f) o].
Proof. intros c o' [?|[]]. simplify_eq. eauto. Qed.

Lemma lock_only_rm f o : lock_only [EvRun (Tk.rm_call f) o].
Proof. intros c o' [?|[]]. simplify_eq. eauto. Qed.

Lemma scan_locks_lock_only (files locks_found : list string) :
  always lock_only (Tk.scan_locks files locks_found).
Proof.
  revert locks_found.
  induction files as [|lock_file rest IH]; intros locks_found; simpl.
  - always_step.
  - always_step; [always_step|]. always_step; [|apply IH].
    repeat always_step; auto using lock_only_log, lock_only_lsof.
Qed.

Lemma remove_stale_lock_only (locks_found : list string) :
  always lock_only (Tk.remove_stale locks_found).
Proof.
  induction locks_found as [|lock_file rest IH]; simpl.
  - always_step.
  - always_step; [|apply IH].
    repeat always_step; auto using lock_only_log, lock_only_lsof, lock_only_rm.
Qed.

(** The second loop swallows every error. *)
Lemma remove_stale_total (locks_found : list string) (w : World) :
  result_of (Tk.remove_stale locks_found) w = Ok tt.
Proof.
  revert w. induction locks_found as [|lock_file rest IH]; intros w; [done|].
  cbn [Tk.remove_stale]. rewrite result_bind.
  match goal with
  | |- context [result_of (try_except ?m ?h) w] =>
      assert (Hhead : result_of (try_except m h) w = Ok tt)
  end.
  { unfold result_of, try_except, bind, subprocess_run, logging, emit, ret.
    os_any; try done.
    all: destruct (returncode _ =? 0)%Z; simpl; os_any; try done.
    all: destruct (returncode _ =? 0)%Z; simpl; done. }
  rewrite Hhead. apply IH.
Qed.

Lemma lock_only_guarded (tr : list Event) (c : Call) (o : RunOutcome) :
  lock_only tr -> In (EvRun c o) tr -> ~ unguarded c.
Proof.
  intros Hl Hin Hu. destruct (Hl _ _ Hin) as [f [->| ->]];
    destruct Hu as [?|[?|?]]; discriminate.
Qed.

Ltac no_abort Hst Htt :=
  let c := fresh "c" in
  let o := fresh "o" in
  let Hin := fresh "Hin" in
  let Hc := fresh "Hc" in
  let Ho := fresh "Ho" in
  split; [done|];
  intros (c & o & Hin & Hc & Ho); exfalso;
  rewrite ?in_app_iff in Hin; simpl in Hin; rewrite ?in_app_iff in Hin;
  simpl in Hin;
  repeat (destruct Hin as [Hin|Hin]); try done;
  try (injection Hin as <- <-; by eapply Ho);
  try (by eapply (lock_only_guarded _ _ _ Hst Hin));
  try (by eapply (lock_only_guarded _ _ _ Htt Hin)).

Ltac has_abort c o :=
  split; [intros _|done];
  exists c, o; split;
  [rewrite ?in_app_iff; simpl; rewrite ?in_app_iff; simpl; tauto
  |split; [unfold unguarded; tauto|by intros ?]].

(** X5. [check_and_fix_apt_locks] never raises, and it returns [False]
    exactly when one of [dpkg --audit], [dpkg --configure -a] and
    [killall] did not run to completion.  A holder check or a deletion
    that fails never makes it report failure, and neither does a non-zero
    exit status of any command. *)
Theorem check_and_fix_false_iff (w : World) :
  exists b,
    result_of Tk.check_and_fix_apt_locks w = Ok b /\
    (b = false <->
     exists c o,
       In (EvRun c o) (trace_of Tk.check_and_fix_apt_locks w) /\
       unguarded c /\ aborted o).
Proof.
  unfold trace_of, result_of, Tk.check_and_fix_apt_locks.
  pose proof (scan_locks_spec Tk.lock_files []) as Hscan.
  pose proof (scan_locks_lock_only Tk.lock_files []) as Hscan_only.
  pose proof remove_stale_total as Hstale.
  pose proof remove_stale_lock_only as Hstale_only.
  unfold always, trace_of, result_of in Hscan, Hscan_only, Hstale, Hstale_only.
  remember (Tk.scan_locks Tk.lock_files []) as scan eqn:Escan.
  remember Tk.remove_stale as stale eqn:Estale.
  clear Escan Estale.
  unfold try_except, bind, logging, emit, sleep, subprocess_run, ret. simpl.
  destruct (os_run Tk.audit_call w) as [[r| |msg] w1]; simpl.
  2:{ exists false. split; [done|]. has_abort Tk.audit_call TimedOut. }
  2:{ exists false. split; [done|]. has_abort Tk.audit_call (LaunchFailed msg). }
  destruct (negb (returncode r =? 0)%Z || truthy (strip (stdout r))); simpl.
  - destruct (os_run Tk.configure_call w1) as [[r'| |msg] w2]; simpl.
    2:{ exists false. split; [done|]. has_abort Tk.configure_call TimedOut. }
    2:{ exists false. split; [done|].
        has_abort Tk.configure_call (LaunchFailed msg). }
    destruct (returncode r' =? 0)%Z; simpl.
    all: destruct (Hscan w2) as (found & Hres & _); pose proof (Hscan_only w2) as Hst.
    all: destruct (scan w2) as [[res w3] st]; simpl in *; subst res.
    all: destruct found as [|f found]; simpl.
    all: try (exists true; split; [done|]; by no_abort Hst Hst).
    all: destruct (os_run Tk.killall_call w3) as [[r''| |msg] w4]; simpl.
    all: try (exists false; split; [done|]; by has_abort Tk.killall_call TimedOut).
    all: try (exists false; split; [done|];
              by has_abort Tk.killall_call (LaunchFailed msg)).
    all: pose proof (Hstale (f :: found) (os_sleep 2 w4)) as Hok.
    all: pose proof (Hstale_only (f :: found) (os_sleep 2 w4)) as Htt.
    all: destruct (stale (f :: found) (os_sleep 2 w4)) as [[res w5] tt'].
    all: simpl in *; subst res; simpl.
    all: exists true; split; [done|]; by no_abort Hst Htt.
  - destruct (Hscan w1) as (found & Hres & _); pose proof (Hscan_only w1) as Hst.
    destruct (scan w1) as [[res w3] st]; simpl in *; subst res.
    destruct found as [|f found]; simpl.
    { exists true; split; [done|]; by no_abort Hst Hst. }
    destruct (os_run Tk.killall_call w3) as [[r''| |msg] w4]; simpl.
    2:{ exists false; split; [done|]; by has_abort Tk.killall_call TimedOut. }
    2:{ exists false; split; [done|];
        by has_abort Tk.killall_call (LaunchFailed msg). }
    pose proof (Hstale (f :: found) (os_sleep 2 w4)) as Hok.
    pose proof (Hstale_only (f :: found) (os_sleep 2 w4)) as Htt.
    destruct (stale (f :: found) (os_sleep 2 w4)) as [[res w5] tt'].
    simpl in *; subst res; simpl.
    exists true; split; [done|]; by no_abort Hst Htt.
Qed.

Ltac not_in_prefix Hin :=
  rewrite ?in_app_iff in Hin; simpl in Hin; rewrite ?in_app_iff in Hin;
  simpl in Hin;
  repeat (destruct Hin as [Hin|Hin]); try done.

Ltac in_trace :=
  rewrite ?in_app_iff; simpl; rewrite ?in_app_iff; simpl; tauto.

(** X6. [check_and_fix_apt_locks] runs [killall -9 apt apt-get dpkg]
    exactly in the runs in which a holder check found a lock file held:
    without such a finding no process is killed. *)
Theorem check_and_fix_kills_iff_held (w : World) :
  (exists o, In (EvRun Tk.killall_call o) (trace_of Tk.check_and_fix_apt_locks w)) <->
  (exists f, found_held f (trace_of Tk.check_and_fix_apt_locks w)).
Proof.
  unfold found_held, trace_of, Tk.check_and_fix_apt_locks.
  pose proof (scan_locks_spec Tk.lock_files []) as Hscan.
  pose proof (scan_locks_lock_only Tk.lock_files []) as Hscan_only.
  unfold always, trace_of, result_of in Hscan, Hscan_only.
  remember (Tk.scan_locks Tk.lock_files []) as scan eqn:Escan.
  remember Tk.remove_stale as stale eqn:Estale.
  clear Escan Estale.
  assert (Hquiet : forall st c o, lock_only st -> In (EvRun c o) st ->
                                  c <> Tk.killall_call).
  { intros st c o Hl Hin ->. destruct (Hl _ _ Hin) as [f [?|?]]; discriminate. }
  unfold try_except, bind, logging, emit, sleep, subprocess_run, ret. simpl.
  destruct (os_run Tk.audit_call w) as [[r| |msg] w1]; simpl.
  2,3: split; [intros [o Hin]|intros (f & r & Hin & _)]; by not_in_prefix Hin.
  set (prelude := if negb (returncode r =? 0)%Z || truthy (strip (stdout r))
                  then _ else _).
  assert (Hprelude : forall c o, In (EvRun c o) (prelude w1).2 ->
                                 c = Tk.configure_call).
  { subst prelude. intros c o. destruct (_ || _); simpl; [|done].
    destruct (os_run Tk.configure_call w1) as [[r'| |msg] w2]; simpl;
      [destruct (returncode r' =? 0)%Z; simpl|..];
      intros Hin; not_in_prefix Hin; by injection Hin as <- <-. }
  destruct (prelude w1) as [[[[]|e] w2] pt]; simpl in Hprelude |- *.
  2:{ split; [intros [o Hin]|intros (f & r' & Hin & _)]; not_in_prefix Hin;
        by apply Hprelude in Hin. }
  destruct (Hscan w2) as (found & Hres & HS). pose proof (Hscan_only w2) as Hst.
  destruct (scan w2) as [[res w3] st]; simpl in *. subst res.
  destruct found as [|f found]; simpl.
  { split; [intros [o Hin]|intros (f & r' & Hin & Hr)]; not_in_prefix Hin.
    - by apply Hprelude in Hin.
    - by destruct (Hquiet st _ _ Hst Hin).
    - by apply Hprelude in Hin.
    - by apply (scan_found _ _ _ HS) in Hin. }
  assert (Hheld : exists r', In (EvRun (Tk.lsof_call f) (Completed r')) st /\
                             Tk.reports_holder r' = true).
  { apply (scan_held _ _ _ HS). by left. }
  destruct Hheld as (r' & Hin' & Hr').
  destruct (os_run Tk.killall_call w3) as [[r''| |msg] w4]; simpl.
  2,3: split; [intros _; exists f, r'; split; [in_trace|done]
              |intros _; eexists; in_trace].
  destruct (stale (f :: found) (os_sleep 2 w4)) as [[[[]|e] w5] tt']; simpl.
  all: split; [intros _; exists f, r'; split; [in_trace|done]
              |intros _; eexists; in_trace].
Qed.

(** ** The SPI worker of the Tk tool *)

Ltac rc_cases :=
  repeat match goal with
         | |- context [(returncode ?r =? 0)%Z] =>
             let E := fresh "Hrc" in
             destruct (returncode r =? 0)%Z eqn:E; simpl
         end.

Ltac unfold_worker :=
  unfold trace_of, result_of, Tk.enable_spi_worker, Tk.root_after,
    try_except, bind, subprocess_run, logging, emit, ret, raise, now_strftime.

(** X7. The SPI worker of the Tk tool never raises, and it writes the boot
    configuration only after the backup copy and the read have both exited
    with status 0: a failed backup ends the run before anything is
    written. *)
Theorem enable_spi_worker_backup_first (w : World) :
  result_of Tk.enable_spi_worker w = Ok tt /\
  forall content o,
    In (EvRun (Tk.config_tee_call Tk.BOOT_CONFIG_FILE content) o)
       (trace_of Tk.enable_spi_worker w) ->
    exists stamp rb rc,
      In (EvRun (Tk.config_backup_call Tk.BOOT_CONFIG_FILE
                   (Tk.BOOT_CONFIG_FILE +:+ ".backup_" +:+ stamp)) (Completed rb))
         (trace_of Tk.enable_spi_worker w) /\
      returncode rb = 0%Z /\
      In (EvRun (Tk.config_cat_call Tk.BOOT_CONFIG_FILE) (Completed rc))
         (trace_of Tk.enable_spi_worker w) /\
      returncode rc = 0%Z.
Proof.
  unfold_worker. simpl.
  destruct (os_run Tk.spi_helper_call w) as [[r0| |msg0] w1]; simpl.
  2,3: split; [done|]; intros content o Hev; by not_in_prefix Hev.
  destruct (os_run (Tk.config_backup_call _ _) w1) as [[rb| |msgb] w2] eqn:Hcp;
    simpl.
  2,3: split; [done|]; intros content o Hev; by not_in_prefix Hev.
  destruct (returncode rb =? 0)%Z eqn:Hrb; simpl.
  2:{ split; [done|]; intros content o Hev; by not_in_prefix Hev. }
  apply Z.eqb_eq in Hrb.
  destruct (os_run (Tk.config_cat_call _) w2) as [[rc| |msgc] w3]; simpl.
  2,3: split; [done|]; intros content o Hev; by not_in_prefix Hev.
  destruct (returncode rc =? 0)%Z eqn:Hrc; simpl.
  2:{ split; [done|]; intros content o Hev; by not_in_prefix Hev. }
  apply Z.eqb_eq in Hrc.
  contains_cases; os_any; rc_cases.
  all: split; [done|]; intros content o Hev.
  all: exists (timestamp w1), rb, rc.
  all: split; [in_trace|split; [done|split; [in_trace|done]]].
Qed.

(** X8. The SPI worker of the Tk tool makes the edit of [_enable_spi] of
    the GTK tool: when its read of the boot configuration exits with
    status 0, what it sends to [tee] is the text read with the missing
    SPI directives appended, and nothing when none is missing. *)
Theorem enable_spi_worker_writes (w : World) (r : CompletedProcess) :
  In (EvRun (Tk.config_cat_call Tk.BOOT_CONFIG_FILE) (Completed r))
     (trace_of Tk.enable_spi_worker w) ->
  returncode r = 0%Z ->
  writes_of (trace_of Tk.enable_spi_worker w) =
  if (spi_edit (stdout r)).2 then [(spi_edit (stdout r)).1] else [].
Proof.
  unfold_worker. simpl.
  destruct (os_run Tk.spi_helper_call w) as [[r0| |msg0] w1]; simpl.
  2,3: intros Hev; by not_in_prefix Hev.
  destruct (os_run (Tk.config_backup_call _ _) w1) as [[rb| |msgb] w2]; simpl.
  2,3: intros Hev; by not_in_prefix Hev.
  destruct (returncode rb =? 0)%Z eqn:Hrb; simpl.
  2:{ intros Hev; by not_in_prefix Hev. }
  destruct (os_run (Tk.config_cat_call _) w2) as [[rc| |msgc] w3]; simpl.
  2,3: intros Hev; by not_in_prefix Hev.
  destruct (returncode rc =? 0)%Z eqn:Hrc; simpl.
  2:{ intros Hev Hr. not_in_prefix Hev. injection Hev as <-.
      apply Z.eqb_neq in Hrc. done. }
  contains_cases; os_any; rc_cases.
  all: intros Hev _; not_in_prefix Hev; injection Hev as <-.
  all: unfold spi_edit, V2.spi_param, V2.spi_overlay, V2.spi_header.
  all: rewrite ?append_assoc in *.
  all: use_contains; cbn [negb fst snd]; rewrite ?append_assoc; use_contains.
  all: cbn [negb fst snd]; rewrite ?append_assoc; reflexivity.
Qed.

(** ** The edit procedures: commands issued, ways of failing *)

(** X9. A run of an edit procedure that read the boot configuration has
    issued, in this order: the helper of the procedure (SPI, I2C), the
    backup copy, the read and, when the edit adds something, one write of
    the edited text.  Nothing else is run. *)
Theorem procedure_commands (f : Feature) (w : World) (c : string) :
  reads (trace_of (procedure f) w) c ->
  commands (trace_of (procedure f) w) =
    prelude f ++ [cp_call (timestamp (run_all (prelude f) w)); cat_call] ++
    (if (edit f c).2 then [tee_call (edit f c).1] else []).
Proof.
  destruct f; simpl.
  all: unfold reads, run_all; unfold_v2; simpl; run_cases.
  all: intros (r' & Hr & <-).
  all: read_inv Hr.
  all: unfold spi_edit, i2c_edit, meshadv_edit;
    use_contains; simpl; use_contains; reflexivity.
Qed.

(** X10. An edit procedure never returns a failed result: it returns
    success or raises [ConfigurationError], and when it raises no write of
    the boot configuration has completed. *)
Theorem procedure_fails_before_write (f : Feature) (w : World) :
  match result_of (procedure f) w with
  | Ok res => V2.success res = true
  | Raise e =>
      (exists msg, e = ConfigurationError msg) /\
      forall content r,
        ~ In (EvRun (tee_call content) (Completed r)) (trace_of (procedure f) w)
  end.
Proof.
  destruct f; simpl.
  all: unfold_v2; simpl; run_cases.
  all: try reflexivity.
  all: split; [eauto|].
  all: intros content r' Hev; not_in_prefix Hev.
Qed.

(** ** The edits and the status checks *)

Lemma spi_edit_status (w : World) (c : string) :
  file_read V2.BOOT_CONFIG_FILE w = Some (edit SPI c).1 ->
  path_exists "/dev/spidev0.0" w || path_exists "/dev/spidev0.1" w = true ->
  V2.check_spi_status w = true.
Proof.
  intros Hfile Hdev.
  pose proof (edit_complete SPI c V2.spi_param (or_introl eq_refl)) as Hp.
  pose proof (edit_complete SPI c V2.spi_overlay (or_intror (or_introl eq_refl)))
    as Ho.
  unfold V2.spi_param in Hp. unfold V2.spi_overlay in Ho.
  unfold V2.check_spi_status. cbv zeta. by rewrite Hfile, Hdev, Hp, Ho.
Qed.

(** X11. The text an edit procedure leaves satisfies its status check:
    with that text in the boot configuration and the device (or the
    MeshAdv Mini HAT) present, the check answers true.  For the MeshAdv
    Mini procedure this needs that the procedure did add its block, that
    is, that its marker comment was not in the text before. *)
Theorem edit_enables_status (f : Feature) (hardware : V2.HardwareDetector)
    (w : World) (c : string) :
  file_read V2.BOOT_CONFIG_FILE w = Some (edit f c).1 ->
  device_present f hardware w = true ->
  (f = MeshAdvMini -> contains V2.meshadv_marker c = false) ->
  status f hardware w = true.
Proof.
  intros Hfile Hdev Hfresh.
  destruct f; unfold status, device_present in *.
  - by apply (spi_edit_status w c).
  - pose proof (edit_complete I2C c V2.i2c_param (or_introl eq_refl)) as Hp.
    unfold V2.i2c_param in Hp.
    unfold V2.check_i2c_status. cbv zeta. by rewrite Hfile, Hdev, Hp.
  - unfold V2.check_hat_specific_status.
    destruct (V2.hat_info hardware) as [info|]; [|done].
    apply bool_decide_eq_true in Hdev.
    assert (bool_decide (info = ∅) = false) as ->.
    { apply bool_decide_eq_false. intros ->. by rewrite lookup_empty in Hdev. }
    rewrite (bool_decide_eq_true_2 _ Hdev). cbn [negb orb]. rewrite Hfile.
    cbn [edit]. unfold meshadv_edit. rewrite (Hfresh eq_refl). cbn [negb fst].
    rewrite !contains_app_r; done.
Qed.

(** X12. The MeshAdv Mini procedure and its status check disagree on a
    text that has the marker comment and not the GPIO directive: the
    procedure adds nothing, taking the configuration as present, and the
    status check on the text it leaves answers false. *)
Theorem meshadv_marker_blocks_edit (hardware : V2.HardwareDetector)
    (w : World) (c : string) :
  contains V2.meshadv_marker c = true ->
  contains "gpio=4=op,dh" c = false ->
  file_read V2.BOOT_CONFIG_FILE w = Some (edit MeshAdvMini c).1 ->
  edit MeshAdvMini c = (c, false) /\
  V2.check_hat_specific_status hardware w = false.
Proof.
  intros Hmarker Hgpio. simpl. unfold meshadv_edit. rewrite Hmarker. simpl.
  intros Hfile. split; [done|].
  unfold V2.check_hat_specific_status.
  destruct (V2.hat_info hardware) as [info|]; [|done].
  destruct (_ || _); [done|]. by rewrite Hfile, Hgpio.
Qed.

(** X13. Once the SPI edit is in the boot configuration and a device file
    is there, the button of either tool starts nothing: the GTK handler
    leaves the orchestrator as it is and only logs, the Tk handler starts
    no worker. *)
Theorem enabled_spi_click_is_noop (w : World) (c : string)
    (returns : list (list nat)) (s : V2.Orchestrator) :
  file_read V2.BOOT_CONFIG_FILE w = Some (edit SPI c).1 ->
  path_exists "/dev/spidev0.0" w || path_exists "/dev/spidev0.1" w = true ->
  V2.handle_enable_spi w returns s = (s, [EvLog INFO "SPI is already enabled"]) /\
  result_of Tk.handle_enable_spi w = Ok None /\
  commands (trace_of Tk.handle_enable_spi w) = [].
Proof.
  intros Hfile Hdev.
  pose proof (spi_edit_status w c Hfile Hdev) as Hv2.
  assert (Tk.check_spi_status w = true) as Htk by exact Hv2.
  unfold V2.handle_enable_spi, Tk.handle_enable_spi, result_of, trace_of,
    bind, logging, emit, ret.
  rewrite Hv2, Htk. done.
Qed.

(** ** The probes of the status checker *)

Ltac unfold_probes :=
  unfold trace_of, result_of, world_after,
    V2.check_meshtasticd_status, V2.check_python_cli_status, V2.check_avahi_status,
    V2.check_meshtasticd_boot_status, V2.check_meshtasticd_service_status,
    V2.check_package_installed, V2.check_service_enabled, V2.check_service_active,
    V2.run_sudo_command, V2.run_command,
    try_except, bind, subprocess_run, exists_, logging, emit, ret, raise,
    dpkg_call, which_call, meshtastic_call, pipx_call, probe_call.

(** X14. The probes of the status checker never raise: from every state
    of the system each of them returns a truth value, also when its
    command cannot be launched or times out. *)
Theorem status_probes_never_raise (w : World) (name : string) :
  (exists b, result_of (V2.check_package_installed name) w = Ok b) /\
  (exists b, result_of (V2.check_service_enabled name) w = Ok b) /\
  (exists b, result_of (V2.check_service_active name) w = Ok b) /\
  (exists b, result_of V2.check_meshtasticd_status w = Ok b) /\
  (exists b, result_of V2.check_meshtasticd_boot_status w = Ok b) /\
  (exists b, result_of V2.check_meshtasticd_service_status w = Ok b) /\
  (exists b, result_of V2.check_python_cli_status w = Ok b) /\
  (exists b, result_of V2.check_avahi_status w = Ok b).
Proof.
  repeat split.
  all: unfold_probes; simpl; os_any; eauto.
  all: destruct (negb _); simpl; eauto.
Qed.

Lemma check_meshtasticd_status_run (w : World) :
  V2.check_meshtasticd_status w =
  (Ok (prints_installed (os_run (dpkg_call V2.PKG_NAME) w).1 ||
       (path_exists "/usr/sbin/meshtasticd" (os_run (dpkg_call V2.PKG_NAME) w).2 ||
        path_exists "/usr/bin/meshtasticd" (os_run (dpkg_call V2.PKG_NAME) w).2) ||
       exits_ok (os_run which_call (os_run (dpkg_call V2.PKG_NAME) w).2).1),
   (os_run which_call (os_run (dpkg_call V2.PKG_NAME) w).2).2,
   [EvRun (dpkg_call V2.PKG_NAME) (os_run (dpkg_call V2.PKG_NAME) w).1;
    EvRun which_call (os_run which_call (os_run (dpkg_call V2.PKG_NAME) w).2).1]).
Proof.
  unfold_probes. simpl.
  destruct (os_run _ w) as [[r1| |msg1] w1]; simpl.
  all: destruct (os_run _ w1) as [[r2| |msg2] w2]; simpl.
  all: reflexivity.
Qed.

(** X15. [check_meshtasticd_status] always asks both [dpkg -l] and
    [which], also when the first already answers, and it answers true
    exactly when [dpkg] exits 0 and prints ["ii"], or one of the two binary
    paths exists, or [which] exits 0. *)
Theorem check_meshtasticd_status_iff (w : World) :
  commands (trace_of V2.check_meshtasticd_status w)
    = [dpkg_call V2.PKG_NAME; which_call] /\
  (result_of V2.check_meshtasticd_status w = Ok true <->
   (exists r, In (EvRun (dpkg_call V2.PKG_NAME) (Completed r))
                 (trace_of V2.check_meshtasticd_status w) /\
              returncode r = 0%Z /\ contains "ii" (stdout r) = true) \/
   path_exists "/usr/sbin/meshtasticd" (os_run (dpkg_call V2.PKG_NAME) w).2 = true \/
   path_exists "/usr/bin/meshtasticd" (os_run (dpkg_call V2.PKG_NAME) w).2 = true \/
   (exists r, In (EvRun which_call (Completed r))
                 (trace_of V2.check_meshtasticd_status w) /\
              returncode r = 0%Z)).
Proof.
  unfold trace_of, result_of. rewrite check_meshtasticd_status_run.
  cbn [fst snd commands].
  destruct (os_run (dpkg_call V2.PKG_NAME) w) as [o1 w1]. cbn [fst snd].
  destruct (os_run which_call w1) as [o2 w2]. cbn [fst snd].
  split; [reflexivity|]. split.
  - intros [= Hb]. apply orb_true_iff in Hb as [Hb|Hb];
      [apply orb_true_iff in Hb as [Hb|Hb]|].
    + destruct o1 as [r| |msg]; try discriminate Hb.
      apply andb_true_iff in Hb as [Hrc Hii]. apply Z.eqb_eq in Hrc.
      left. exists r. split; [by left|done].
    + apply orb_true_iff in Hb as [Hb|Hb]; tauto.
    + destruct o2 as [r| |msg]; try discriminate Hb.
      apply Z.eqb_eq in Hb.
      right; right; right. exists r. split; [right; by left|done].
  - intros [(r & Hev & Hrc & Hii)|[Hs|[Hb|(r & Hev & Hrc)]]]; f_equal.
    + destruct Hev as [Hev|[Hev|[]]]; [|discriminate Hev].
      injection Hev as ->. simpl. by rewrite Hrc, Hii.
    + rewrite Hs. by rewrite orb_true_r.
    + rewrite Hb. by rewrite !orb_true_r.
    + destruct Hev as [Hev|[Hev|[]]]; [discriminate Hev|].
      injection Hev as ->. simpl. rewrite Hrc. by rewrite orb_true_r.
Qed.

(** X16. [check_python_cli_status] consults [pipx list] exactly when the
    [meshtastic] command did not run to completion; when it completes, the
    answer is whether it exited 0, whatever [pipx] would say. *)
Theorem check_python_cli_fallback (w : World) :
  ((exists o, In (EvRun pipx_call o) (trace_of V2.check_python_cli_status w)) <->
   aborted (os_run meshtastic_call w).1) /\
  (forall r, (os_run meshtastic_call w).1 = Completed r ->
             result_of V2.check_python_cli_status w = Ok (returncode r =? 0)%Z).
Proof.
  unfold aborted. unfold_probes. simpl.
  destruct (os_run _ w) as [[r1| |msg1] w1]; simpl.
  - split; [|by intros r [= <-]]. split.
    + intros [o Hev]. by not_in_prefix Hev.
    + intros Ha. by destruct (Ha r1).
  - split; [|done]. split; [done|]. intros _.
    destruct (os_run _ w1) as [[r2| |msg2] w2]; simpl; eexists; in_trace.
  - split; [|done]. split; [done|]. intros _.
    destruct (os_run _ w1) as [[r2| |msg2] w2]; simpl; eexists; in_trace.
Qed.

(** ** The service operations *)

(** X17. A service operation (enable on boot, start, stop) runs one
    [systemctl] command.  It returns success exactly when that command
    exits 0; otherwise it raises [MeshtasticError], and the error raised
    for a non-zero exit status is caught by the operation's own handler and
    wrapped again, so that its message carries both prefixes before the
    error output of [systemctl]. *)
Theorem service_procedure_outcome (op : ServiceOp) (w : World) :
  commands (trace_of (service_procedure op) w) = [systemctl_call op] /\
  match (os_run (systemctl_call op) w).1 with
  | Completed r =>
      if (returncode r =? 0)%Z then
        exists res, result_of (service_procedure op) w = Ok res /\
                    V2.success res = true
      else
        result_of (service_procedure op) w =
        Raise (MeshtasticError
                 (failure_prefix op +:+ refused_prefix op +:+ stderr r))
  | TimedOut =>
      result_of (service_procedure op) w =
      Raise (MeshtasticError
               (failure_prefix op +:+ "Command timed out: " +:+
                String.concat " " (argv (systemctl_call op))))
  | LaunchFailed msg =>
      result_of (service_procedure op) w =
      Raise (MeshtasticError (failure_prefix op +:+ "Command failed: " +:+ msg))
  end.
Proof.
  destruct op; simpl.
  all: unfold trace_of, result_of, V2._enable_boot_service, V2._start_service,
         V2._stop_service, V2.run_sudo_command, V2.run_command, systemctl_call,
         sudo_call, try_except, bind, subprocess_run, logging, emit, ret, raise.
  all: simpl.
  all: destruct (os_run _ w) as [[r| |msg] w1]; simpl; [|done..].
  all: destruct (returncode r =? 0)%Z; simpl; eauto.
Qed.

(** ** The GPS/UART procedure *)

Ltac unfold_gps :=
  unfold trace_of, result_of, world_after, V2._enable_gps_uart,
    V2.backup_file, V2.run_sudo_command, V2.run_command,
    try_except, bind, subprocess_run, logging, idle_add, emit, ret, raise,
    now_strftime, serial_call, cp_call, cat_call, tee_call, sudo_call.

Lemma gps_writes (hardware : V2.HardwareDetector) (w : World) (c : string) :
  reads (trace_of (V2._enable_gps_uart hardware) w) c ->
  writes_of (trace_of (V2._enable_gps_uart hardware) w) =
  if (gps_edit (V2.is_pi5 hardware) c).2
  then [(gps_edit (V2.is_pi5 hardware) c).1] else [].
Proof.
  unfold reads; unfold_gps; simpl.
  destruct (V2.is_pi5 hardware); simpl; run_cases; rc_cases.
  all: intros (r' & Hr & <-).
  all: read_inv Hr.
  all: unfold gps_edit; use_contains; simpl; use_contains; reflexivity.
Qed.

(** After the edit the directives are there. *)
Lemma gps_edit_complete (pi5 : bool) (c : string) :
  contains V2.uart_param (gps_edit pi5 c).1 = true /\
  (pi5 = true -> contains V2.uart_overlay (gps_edit pi5 c).1 = true).
Proof.
  unfold gps_edit.
  destruct (contains V2.uart_param c) eqn:Hp; cbn [negb].
  - destruct pi5; cbn [andb]; [|done].
    destruct (contains V2.uart_overlay c) eqn:Ho; cbn [negb fst]; [done|].
    split; [by apply contains_app_l, contains_app_l|intros _; by apply contains_app_r].
  - assert (contains V2.uart_param
              (c +:+ V2.uart_header +:+ V2.uart_param +:+ nl) = true) as Hp'
      by (by apply contains_app_r).
    destruct pi5; cbn [andb]; [|done].
    destruct (contains V2.uart_overlay
                (c +:+ V2.uart_header +:+ V2.uart_param +:+ nl)) eqn:Ho;
      cbn [negb fst]; [done|].
    split; [by apply contains_app_l|intros _; by apply contains_app_r].
Qed.

(** With the directives there, the edit changes nothing. *)
Lemma gps_edit_present (pi5 : bool) (c : string) :
  contains V2.uart_param c = true ->
  (pi5 = true -> contains V2.uart_overlay c = true) ->
  gps_edit pi5 c = (c, false).
Proof.
  intros Hp Ho. unfold gps_edit. rewrite Hp. cbn [negb].
  destruct pi5; [|done]. by rewrite (Ho eq_refl).
Qed.

Lemma gps_edit_unchanged (pi5 : bool) (c : string) :
  (gps_edit pi5 c).2 = false -> (gps_edit pi5 c).1 = c.
Proof.
  unfold gps_edit.
  destruct (contains V2.uart_param c); cbn [negb].
  - destruct pi5; cbn [andb]; [|done].
    destruct (contains V2.uart_overlay c); done.
  - destruct pi5; cbn [andb]; [|done].
    destruct (contains V2.uart_overlay _); done.
Qed.

(** X18. A run of [_enable_gps_uart] that read the boot configuration and
    returned has issued, in this order: the backup copy, the read, one
    write of the edited text when the edit adds something, and the
    [raspi-config] command that disables the serial console.  The serial
    console is disabled also when nothing had to be written. *)
Theorem gps_commands (hardware : V2.HardwareDetector) (w : World) (c : string)
    (res : V2.OperationResult) :
  reads (trace_of (V2._enable_gps_uart hardware) w) c ->
  result_of (V2._enable_gps_uart hardware) w = Ok res ->
  commands (trace_of (V2._enable_gps_uart hardware) w) =
    [cp_call (timestamp w); cat_call] ++
    (if (gps_edit (V2.is_pi5 hardware) c).2
     then [tee_call (gps_edit (V2.is_pi5 hardware) c).1] else []) ++
    [serial_call].
Proof.
  unfold reads; unfold_gps; simpl.
  destruct (V2.is_pi5 hardware); simpl; run_cases; rc_cases.
  all: intros (r' & Hr & <-); try discriminate.
  all: intros _; read_inv Hr.
  all: unfold gps_edit; use_contains; simpl; use_contains; reflexivity.
Qed.

(** X19. In [_enable_gps_uart] a serial-console command that exits
    non-zero is not an error: whenever that command ran to completion the
    operation returns success, and the exit status only decides between an
    information and a warning in the log. *)
Theorem gps_serial_console_not_fatal (hardware : V2.HardwareDetector)
    (w : World) (r : CompletedProcess) :
  In (EvRun serial_call (Completed r)) (trace_of (V2._enable_gps_uart hardware) w) ->
  (exists res, result_of (V2._enable_gps_uart hardware) w = Ok res /\
               V2.success res = true) /\
  In (if (returncode r =? 0)%Z
      then EvLog INFO " Serial console disabled successfully"
      else EvLog WARNING " Failed to disable serial console")
     (trace_of (V2._enable_gps_uart hardware) w).
Proof.
  unfold_gps; simpl.
  destruct (V2.is_pi5 hardware); simpl; run_cases; rc_cases.
  all: intros Hev; not_in_prefix Hev.
  all: try discriminate Hev.
  all: injection Hev as <-.
  all: try congruence.
  all: split; [eauto|in_trace].
Qed.

(** X20. [_enable_gps_uart] is idempotent on the boot configuration: a run
    on the text a previous run left writes nothing, on a Raspberry Pi 5 as
    on any other model. *)
Theorem gps_edit_idempotent (hardware : V2.HardwareDetector) (w1 w2 : World)
    (c : string) :
  reads (trace_of (V2._enable_gps_uart hardware) w1) c ->
  reads (trace_of (V2._enable_gps_uart hardware) w2)
        (content_after c (trace_of (V2._enable_gps_uart hardware) w1)) ->
  content_after c (trace_of (V2._enable_gps_uart hardware) w1)
    = (gps_edit (V2.is_pi5 hardware) c).1 /\
  writes_of (trace_of (V2._enable_gps_uart hardware) w2) = [].
Proof.
  intros Hr1.
  assert (content_after c (trace_of (V2._enable_gps_uart hardware) w1)
          = (gps_edit (V2.is_pi5 hardware) c).1) as ->.
  { unfold content_after. rewrite (gps_writes hardware w1 c Hr1).
    destruct (gps_edit (V2.is_pi5 hardware) c).2 eqn:E; simpl; [done|].
    symmetry. by apply gps_edit_unchanged. }
  intros Hr2. split; [done|].
  rewrite (gps_writes hardware w2 _ Hr2).
  destruct (gps_edit_complete (V2.is_pi5 hardware) c) as [Hp Ho].
  by rewrite (gps_edit_present _ _ Hp Ho).
Qed.

(** X21. The text [_enable_gps_uart] leaves satisfies
    [check_gps_uart_status]: with that text in the boot configuration the
    check answers true, on a Raspberry Pi 5 (where it also asks for the
    [uart0] overlay) as on any other model. *)
Theorem gps_edit_enables_status (hardware : V2.HardwareDetector) (w : World)
    (c : string) :
  file_read V2.BOOT_CONFIG_FILE w = Some (gps_edit (V2.is_pi5 hardware) c).1 ->
  V2.check_gps_uart_status hardware w = true.
Proof.
  intros Hfile. unfold V2.check_gps_uart_status. rewrite Hfile.
  destruct (gps_edit_complete (V2.is_pi5 hardware) c) as [Hp Ho].
  unfold V2.uart_param in Hp. unfold V2.uart_overlay in Ho. cbv zeta.
  rewrite Hp. destruct (V2.is_pi5 hardware); [|done]. by rewrite Ho.
Qed.

(** ** The pool worker and the progress dialog *)

(** X22. The worker that [_run_operation_with_progress] submits never
    raises, whatever the operation does.  It asks for the progress dialog
    before the operation starts and asks to hide it exactly once, after
    the last event of the operation, whether the operation returned or
    raised; a failure is then handed to the error callback (or the error
    dialog) and logged. *)
Theorem worker_outcome (operation_id : string)
    (operation_func : M V2.OperationResult) (progress_message : string)
    (success_callback error_callback : option string) (w : World) :
  V2.worker operation_id operation_func progress_message
    success_callback error_callback w =
  (Ok tt, world_after operation_func w,
   show_event operation_id progress_message ::
   trace_of operation_func w ++
   hide_event operation_id ::
   report operation_id success_callback error_callback (result_of operation_func w)).
Proof.
  unfold V2.worker, world_after, trace_of, result_of, show_event, hide_event, report,
    try_except, bind, idle_add, logging, emit, ret.
  simpl. destruct (operation_func w) as [[[res|e] w1] t]; simpl.
  - destruct success_callback; simpl; by rewrite <- ?app_assoc.
  - destruct error_callback; simpl; by rewrite <- ?app_assoc.
Qed.

(** X23. Two operations under one id share one progress dialog: the second
    request to show it is ignored, and the first request to hide it
    removes it, so that no dialog is left while the second operation is
    still running.  Showing and hiding once gives back the state before. *)
Theorem same_id_operations_share_dialog (operation_id : string)
    (s : V2.Orchestrator) :
  operation_id ∉ V2.active_operations s ->
  V2._hide_progress_spinner operation_id
    (V2._show_progress_spinner operation_id s) = s /\
  V2._show_progress_spinner operation_id
    (V2._show_progress_spinner operation_id s)
    = V2._show_progress_spinner operation_id s /\
  V2._hide_progress_spinner operation_id
    (V2._show_progress_spinner operation_id
       (V2._show_progress_spinner operation_id s)) = s.
Proof.
  intros Hfresh.
  assert (Hshow : V2._show_progress_spinner operation_id
                    (V2._show_progress_spinner operation_id s)
                  = V2._show_progress_spinner operation_id s).
  { unfold V2._show_progress_spinner.
    rewrite (bool_decide_eq_false_2 _ Hfresh). simpl.
    rewrite bool_decide_eq_true_2
      by (apply elem_of_union; left; by apply elem_of_singleton). done. }
  assert (Hhide : V2._hide_progress_spinner operation_id
                    (V2._show_progress_spinner operation_id s) = s).
  { unfold V2._show_progress_spinner, V2._hide_progress_spinner.
    rewrite (bool_decide_eq_false_2 _ Hfresh). simpl.
    rewrite bool_decide_eq_true_2
      by (apply elem_of_union; left; by apply elem_of_singleton).
    destruct s as [p a ops]. simpl in *. f_equal.
    apply set_eq. intros x.
    rewrite elem_of_difference, elem_of_union, elem_of_singleton.
    split; [by intros [[?|?] ?]|].
    intros Hx. split; [by right|]. by intros ->. }
  by rewrite Hshow, Hhide.
Qed.

End Properties.

(** ** The orchestrator *)

Lemma running_as_app (id : string) (p q : list V2.Future) :
  V2.running_as id (p ++ q) = (V2.running_as id p + V2.running_as id q)%nat.
Proof. unfold V2.running_as. by rewrite List.filter_app, length_app. Qed.

(** A worker that returns changes the state of futures only: the pool keeps
    its tasks and their ids. *)
Lemma start_next_ids (p : list V2.Future) :
  V2.operation_id <$> V2.start_next p = V2.operation_id <$> p.
Proof.
  induction p as [|f p IH]; [done|]. cbn [V2.start_next].
  destruct (V2.is_pending f); rewrite !fmap_cons; [done|]. by rewrite IH.
Qed.

Lemma complete_ids (i : nat) (s : V2.Orchestrator) :
  V2.operation_id <$> V2.pool (V2.complete i s) = V2.operation_id <$> V2.pool s.
Proof.
  unfold V2.complete. destruct (V2.pool s !! i) as [f|] eqn:Hf; [|done].
  destruct (V2.is_running f); [|done]. simpl.
  rewrite start_next_ids, list_fmap_insert. simpl.
  apply list_insert_id. by rewrite list_lookup_fmap, Hf.
Qed.

Lemma workers_return_ids (finished : list nat) (s : V2.Orchestrator) :
  V2.operation_id <$> V2.pool (V2.workers_return finished s)
  = V2.operation_id <$> V2.pool s.
Proof.
  unfold V2.workers_return. revert s.
  induction finished as [|i finished IH]; intros s; [done|].
  simpl. by rewrite IH, complete_ids.
Qed.

Lemma keep_not_done_ids (returns : list (list nat)) (active : list nat)
    (s : V2.Orchestrator) :
  V2.operation_id <$> V2.pool (V2.keep_not_done returns active s).2
  = V2.operation_id <$> V2.pool s.
Proof.
  revert returns s. induction active as [|f rest IH]; intros returns s; [done|].
  simpl. specialize (IH (tl returns) (V2.workers_return (hd [] returns) s)).
  destruct (V2.keep_not_done _ rest _) as [kept s']. simpl in *.
  by rewrite IH, workers_return_ids.
Qed.

(** A future that is done stays done. *)
Lemma start_next_done (p : list V2.Future) (j : nat) :
  V2.done p j = true -> V2.done (V2.start_next p) j = true.
Proof.
  unfold V2.done. revert j. induction p as [|f p IH]; intros j; [done|].
  simpl. destruct (V2.is_pending f) eqn:Hp.
  - destruct j as [|j]; simpl; [|done].
    unfold V2.is_pending in Hp. by destruct (V2.state f).
  - destruct j as [|j]; simpl; [done|]. apply IH.
Qed.

Lemma complete_done (i j : nat) (s : V2.Orchestrator) :
  V2.done (V2.pool s) j = true -> V2.done (V2.pool (V2.complete i s)) j = true.
Proof.
  intros Hj. unfold V2.complete.
  destruct (V2.pool s !! i) as [f|] eqn:Hf; [|done].
  destruct (V2.is_running f) eqn:Hr; [|done]. simpl.
  apply start_next_done. unfold V2.done in *.
  destruct (decide (i = j)) as [->|Hne].
  - rewrite Hf in Hj. unfold V2.is_running in Hr. by destruct (V2.state f).
  - by rewrite list_lookup_insert_ne.
Qed.

Lemma workers_return_done (finished : list nat) (j : nat) (s : V2.Orchestrator) :
  V2.done (V2.pool s) j = true ->
  V2.done (V2.pool (V2.workers_return finished s)) j = true.
Proof.
  unfold V2.workers_return. revert s.
  induction finished as [|i finished IH]; intros s Hj; [done|].
  simpl. by apply IH, complete_done.
Qed.

Lemma keep_not_done_done (returns : list (list nat)) (active : list nat)
    (j : nat) (s : V2.Orchestrator) :
  V2.done (V2.pool s) j = true ->
  V2.done (V2.pool (V2.keep_not_done returns active s).2) j = true.
Proof.
  revert returns s. induction active as [|f rest IH]; intros returns s Hj; [done|].
  simpl. specialize (IH (tl returns) (V2.workers_return (hd [] returns) s)
                       (workers_return_done _ _ _ Hj)).
  by destruct (V2.keep_not_done _ rest _) as [kept s'].
Qed.

(** What the list comprehension keeps. *)
Lemma keep_not_done_sub (returns : list (list nat)) (active : list nat)
    (j : nat) (s : V2.Orchestrator) :
  In j (V2.keep_not_done returns active s).1 -> In j active.
Proof.
  revert returns s. induction active as [|f rest IH]; intros returns s; [done|].
  simpl. specialize (IH (tl returns) (V2.workers_return (hd [] returns) s)).
  destruct (V2.keep_not_done _ rest _) as [kept s']. simpl in *.
  destruct (V2.done (V2.pool (V2.workers_return (hd [] returns) s)) f);
    simpl; tauto.
Qed.

Lemma keep_not_done_keeps (returns : list (list nat)) (active : list nat)
    (j : nat) (s : V2.Orchestrator) :
  In j active ->
  V2.done (V2.pool (V2.keep_not_done returns active s).2) j = false ->
  In j (V2.keep_not_done returns active s).1.
Proof.
  revert returns s. induction active as [|f rest IH]; intros returns s; [done|].
  simpl.
  pose proof (keep_not_done_done (tl returns) rest j
                (V2.workers_return (hd [] returns) s)) as Hmono.
  specialize (IH (tl returns) (V2.workers_return (hd [] returns) s)).
  destruct (V2.keep_not_done _ rest _) as [kept s']. simpl in *.
  intros [->|Hin] Hj.
  - destruct (V2.done (V2.pool (V2.workers_return (hd [] returns) s)) j) eqn:Hd;
      simpl; [|by left].
    rewrite Hmono in Hj; done.
  - destruct (V2.done (V2.pool (V2.workers_return (hd [] returns) s)) f);
      simpl; auto.
Qed.

Lemma keep_not_done_drops (returns : list (list nat)) (active : list nat)
    (j : nat) (s : V2.Orchestrator) :
  V2.done (V2.pool (V2.workers_return (hd [] returns) s)) j = true ->
  ~ In j (V2.keep_not_done returns active s).1.
Proof.
  revert returns s. induction active as [|f rest IH]; intros returns s Hj; [by intros []|].
  simpl.
  specialize (IH (tl returns) (V2.workers_return (hd [] returns) s)
                (workers_return_done _ _ _ Hj)).
  destruct (V2.keep_not_done _ rest _) as [kept s']. simpl in *.
  destruct (V2.done (V2.pool (V2.workers_return (hd [] returns) s)) f) eqn:Hd;
    simpl; [done|].
  intros [->|Hin]; [congruence|done].
Qed.

(** When no worker returns meanwhile, the comprehension is a filter on the
    state as it is. *)
Lemma keep_not_done_quiet (active : list nat) (s : V2.Orchestrator) :
  V2.keep_not_done [] active s
  = (List.filter (fun f => negb (V2.done (V2.pool s) f)) active, s).
Proof.
  induction active as [|f rest IH]; [done|].
  simpl. change (V2.workers_return [] s) with s. rewrite IH.
  by destruct (V2.done (V2.pool s) f).
Qed.

Lemma submit_task_quiet (id : string) (s : V2.Orchestrator) :
  V2.submit_task id [] s =
  V2.mkOrchestrator (V2.executor_submit id (V2.pool s))
    (List.filter (fun f => negb (V2.done (V2.executor_submit id (V2.pool s)) f))
       (V2.active_futures s ++ [length (V2.pool s)]))
    (V2.active_operations s).
Proof. unfold V2.submit_task. by rewrite keep_not_done_quiet. Qed.

(** C7 (amended). A submission is never rejected: it adds a task for the
    operation to the pool, and the task runs at once when a worker is free,
    whether or not a task of the same operation id is still running.  The
    same holds after any task has finished.  Whichever workers return
    while the submission is made, the pool afterwards holds the tasks it
    held and the new one under its id. *)
Theorem submit_never_rejects (id : string) (s : V2.Orchestrator) :
  V2.pool (V2._run_operation_with_progress id [] s) =
    V2.pool s ++
    [V2.mkFuture id (if (V2.running (V2.pool s) <? V2.max_workers)%nat
                     then V2.Running else V2.Pending)] /\
  V2.running_as id (V2.pool (V2._run_operation_with_progress id [] s)) =
    (V2.running_as id (V2.pool s) +
     if (V2.running (V2.pool s) <? V2.max_workers)%nat then 1 else 0)%nat /\
  (forall i,
    V2.pool (V2._run_operation_with_progress id [] (V2.complete i s)) =
      V2.pool (V2.complete i s) ++
      [V2.mkFuture id (if (V2.running (V2.pool (V2.complete i s)) <? V2.max_workers)%nat
                       then V2.Running else V2.Pending)]) /\
  forall returns,
    V2.operation_id <$> V2.pool (V2._run_operation_with_progress id returns s)
    = (V2.operation_id <$> V2.pool s) ++ [id].
Proof.
  unfold V2._run_operation_with_progress.
  split; [by rewrite submit_task_quiet|].
  split; [|split; [intros i; by rewrite submit_task_quiet|]].
  - rewrite submit_task_quiet. unfold V2.executor_submit. simpl.
    rewrite running_as_app. f_equal.
    destruct (V2.running (V2.pool s) <? V2.max_workers)%nat;
      unfold V2.running_as; simpl; [|done].
    by rewrite String.eqb_refl.
  - intros returns. unfold V2.submit_task.
    pose proof (keep_not_done_ids returns
                  (V2.active_futures (V2.enqueue id s)) (V2.enqueue id s)) as Hids.
    destruct (V2.keep_not_done _ _ _) as [kept s']. simpl in *.
    rewrite Hids. unfold V2.executor_submit. by rewrite fmap_app.
Qed.

(** C7, as stated, fails: a second submission of ["enable_spi"] while the
    first is running is taken and runs next to it. *)
Lemma second_submit_runs_concurrently :
  V2.pool (V2._run_operation_with_progress "enable_spi" []
             (V2._run_operation_with_progress "enable_spi" [] V2.initial)) =
  [V2.mkFuture "enable_spi" V2.Running; V2.mkFuture "enable_spi" V2.Running].
Proof. reflexivity. Qed.

Lemma done_executor_submit (id : string) (p : list V2.Future) (i : nat) :
  V2.done (V2.executor_submit id p) i = V2.done p i.
Proof.
  unfold V2.done, V2.executor_submit.
  destruct (decide (i < length p)%nat) as [Hlt|Hge].
  - by rewrite lookup_app_l.
  - rewrite (lookup_ge_None_2 p i) by lia.
    rewrite lookup_app_r by lia.
    destruct (i - length p)%nat as [|n]; simpl; [|done].
    by destruct (V2.running p <? V2.max_workers)%nat.
Qed.

(** X24. What [submit_task] leaves in [active_futures].  Whichever workers
    return while it runs, it keeps only futures that were there or the new
    one, and it keeps every one of them that is still not done when it
    ends.  When no worker returns meanwhile it keeps exactly those not
    done, the new future last.  But when a worker is free and the worker
    of the new task returns before the filter starts, the future just
    submitted is itself dropped from the list. *)
Theorem submit_task_prunes_done (id : string) (returns : list (list nat))
    (s : V2.Orchestrator) (i : nat) :
  (In i (V2.active_futures (V2.submit_task id returns s)) ->
   In i (V2.active_futures s) \/ i = length (V2.pool s)) /\
  (In i (V2.active_futures s) \/ i = length (V2.pool s) ->
   V2.done (V2.pool (V2.submit_task id returns s)) i = false ->
   In i (V2.active_futures (V2.submit_task id returns s))) /\
  (In i (V2.active_futures (V2.submit_task id [] s)) <->
   (In i (V2.active_futures s) \/ i = length (V2.pool s)) /\
   V2.done (V2.pool (V2.submit_task id [] s)) i = false) /\
  last (V2.active_futures (V2.submit_task id [] s)) = Some (length (V2.pool s)) /\
  ((V2.running (V2.pool s) < V2.max_workers)%nat ->
   ~ In (length (V2.pool s))
        (V2.active_futures
           (V2.submit_task id ([length (V2.pool s)] :: tl returns) s))).
Proof.
  assert (Hactive : forall j, In j (V2.active_futures (V2.enqueue id s)) <->
                              In j (V2.active_futures s) \/ j = length (V2.pool s)).
  { intros j. simpl. rewrite in_app_iff. simpl. intuition. }
  split; [|split; [|split; [|split]]].
  - unfold V2.submit_task.
    pose proof (keep_not_done_sub returns
                  (V2.active_futures (V2.enqueue id s)) i (V2.enqueue id s)) as Hsub.
    destruct (V2.keep_not_done _ _ _) as [kept s']. simpl in Hsub |- *.
    intros Hin. apply Hactive. by apply Hsub.
  - unfold V2.submit_task.
    pose proof (keep_not_done_keeps returns
                  (V2.active_futures (V2.enqueue id s)) i (V2.enqueue id s)) as Hkeep.
    destruct (V2.keep_not_done _ _ _) as [kept s']. simpl in Hkeep |- *.
    intros Hin Hd. apply Hkeep; [by apply Hactive|done].
  - rewrite submit_task_quiet. simpl.
    rewrite filter_In, in_app_iff, negb_true_iff. simpl. intuition.
  - rewrite submit_task_quiet. simpl.
    rewrite List.filter_app. simpl. rewrite done_executor_submit.
    assert (V2.done (V2.pool s) (length (V2.pool s)) = false) as ->.
    { unfold V2.done. by rewrite lookup_ge_None_2. }
    simpl. apply last_snoc.
  - intros Hfree. unfold V2.submit_task.
    pose proof (keep_not_done_drops ([length (V2.pool s)] :: tl returns)
                  (V2.active_futures (V2.enqueue id s)) (length (V2.pool s))
                  (V2.enqueue id s)) as Hdrop.
    destruct (V2.keep_not_done _ _ _) as [kept s']. simpl in Hdrop |- *.
    apply Hdrop. clear Hdrop.
    apply Nat.ltb_lt in Hfree.
    unfold V2.complete, V2.enqueue, V2.executor_submit. cbn [V2.pool].
    rewrite Hfree.
    rewrite lookup_app_r by lia. rewrite Nat.sub_diag. simpl.
    apply start_next_done. unfold V2.done.
    rewrite list_lookup_insert_eq; [done|]. rewrite length_app. simpl. lia.
Qed.

(** ** Runs on the simulated system *)

Section Simulated.

#[local] Existing Instance Sim.system.

(** C1, on a package manager that is locked twice. *)
Lemma safe_apt_command_third_attempt_witness :
  Tk.max_retries = 3%nat /\
  result_of (Tk.safe_apt_command ["sudo"; "apt"; "update"] 120 None) w_apt
    = Ok (Some (mkCompleted 0 "Reading package lists..." "")) /\
  world_after (Tk.safe_apt_command ["sudo"; "apt"; "update"] 120 None) w_apt
    = Sim.mkSim ∅ [] "20240101_120000" [] [] /\
  recoveries (trace_of (Tk.safe_apt_command ["sudo"; "apt"; "update"] 120 None) w_apt)
    = 2%nat.
Proof.
  apply (@safe_apt_command_third_attempt Sim.system
           ["sudo"; "apt"; "update"] 120 None
           w_apt
           (Sim.mkSim ∅ [] "20240101_120000" []
              [Sim.exit_1 lock_stderr; Sim.exit_ok "Reading package lists..."])
           (Sim.mkSim ∅ [] "20240101_120000" []
              [Sim.exit_ok "Reading package lists..."])
           (Sim.mkSim ∅ [] "20240101_120000" [] [])
           (mkCompleted 1 "" lock_stderr) (mkCompleted 1 "" lock_stderr)
           (mkCompleted 0 "Reading package lists..." ""));
    vm_compute; reflexivity.
Defined.


(** C2, as stated, fails: a lock file that exists and that no process
    holds is looked at and left where it is. *)
Lemma stale_lock_not_deleted :
  path_exists "/var/lib/dpkg/lock" w_stale = true /\
  (os_run (Tk.lsof_call "/var/lib/dpkg/lock") w_stale).1 = Sim.exit_1 "" /\
  commands (trace_of Tk.check_and_fix_apt_locks w_stale) =
    [Tk.audit_call; Tk.lsof_call "/var/lib/dpkg/lock"] /\
  ~ deleted "/var/lib/dpkg/lock" (trace_of Tk.check_and_fix_apt_locks w_stale) /\
  path_exists "/var/lib/dpkg/lock" (world_after Tk.check_and_fix_apt_locks w_stale)
    = true.
Proof.
  repeat split; try (vm_compute; reflexivity).
  intros [o Hin]. vm_compute in Hin.
  repeat (destruct Hin as [Hin|Hin]; [discriminate Hin|]). exact Hin.
Qed.

(** A lock file that a process holds is deleted once [killall] has freed
    it. *)
Example held_lock_deleted :
  deleted "/var/lib/dpkg/lock" (trace_of Tk.check_and_fix_apt_locks w_held) /\
  path_exists "/var/lib/dpkg/lock" (world_after Tk.check_and_fix_apt_locks w_held)
    = false.
Proof.
  split; [|vm_compute; reflexivity].
  exists (Sim.exit_ok ""). vm_compute. tauto.
Qed.

(** C4, as stated, fails: a command that launches and runs into its
    timeout makes [run_command] raise. *)
Lemma run_command_timeout_raises :
  (os_run (mkCall ["sleep"; "600"] None (Some 5%nat)) w_hang).1 = TimedOut /\
  result_of (V2.run_command ["sleep"; "600"] (Some 5%nat) None) w_hang =
  Raise (MeshtasticError "Command timed out: sleep 600").
Proof. split; vm_compute; reflexivity. Qed.

(** C8, as stated, fails: the status is true without [/dev/spidev0.0]. *)
Lemma spi_status_true_without_spidev0_0 :
  path_exists "/dev/spidev0.0" w_spidev1 = false /\
  V2.check_spi_status w_spidev1 = true /\
  Tk.check_spi_status w_spidev1 = true.
Proof. repeat split; vm_compute; reflexivity. Qed.

(** C6: what [_enable_spi] does when the backup copy exits with status 1,
    and when the write does. *)
Theorem enable_spi_ignores_failed_backup :
  (os_run (cp_call "20240101_120000") w_no_backup).1
    = Sim.exit_1 "cp: error writing: No space left on device" /\
  result_of V2._enable_spi w_no_backup
    = Ok (V2.mkOperationResult true "SPI enabled successfully" "") /\
  file_read boot_config w_no_backup = Some fresh_text /\
  file_read boot_config (world_after V2._enable_spi w_no_backup)
    = Some (fresh_text +:+ V2.spi_header +:+ V2.spi_param +:+ nl +:+
            V2.spi_overlay +:+ nl) /\
  file_read (boot_config +:+ ".backup_20240101_120000")
            (world_after V2._enable_spi w_no_backup) = None /\
  (os_run (tee_call (fresh_text +:+ V2.spi_header +:+ V2.spi_param +:+ nl +:+
                     V2.spi_overlay +:+ nl)) w_no_write).1
    = Sim.exit_1 "tee: /boot/firmware/config.txt: Input/output error" /\
  result_of V2._enable_spi w_no_write
    = Ok (V2.mkOperationResult true "SPI enabled successfully" "") /\
  file_read boot_config (world_after V2._enable_spi w_no_write) = Some fresh_text.
Proof. repeat split; vm_compute; reflexivity. Qed.

(** C5: what an edit procedure does when the read of the boot
    configuration exits with status 1 and prints nothing, on a file that
    has every directive of the procedure: it takes the empty output for
    the text of the file, writes its block alone over the file and
    reports success. *)
Theorem failed_read_overwrites_file (f : Feature) :
  file_read boot_config w_unreadable = Some configured_text /\
  (forall m, In m (markers f) -> contains m configured_text = true) /\
  (os_run cat_call w_unreadable).1 = Sim.exit_1 read_error /\
  (exists res, result_of (procedure f) w_unreadable = Ok res /\
               V2.success res = true) /\
  writes_of (trace_of (procedure f) w_unreadable) = [(edit f "").1] /\
  file_read boot_config (world_after (procedure f) w_unreadable)
    = Some (edit f "").1 /\
  (edit f "").1 <> configured_text.
Proof.
  split; [reflexivity|]. split.
  { intros m Hm. destruct f; simpl in Hm;
      repeat (destruct Hm as [<-|Hm]; [vm_compute; reflexivity|]); destruct Hm. }
  split; [reflexivity|].
  destruct f; (split; [eexists; split; vm_compute; reflexivity|]);
    (split; [vm_compute; reflexivity|]);
    (split; [vm_compute; reflexivity|]); vm_compute; discriminate.
Qed.

(** The commands of a run that finds everything present leave the boot
    configuration alone, on the simulated system. *)
Lemma sim_reads_keep_boot_config (f : Feature) (call : Call) (w' : Sim.SimWorld) :
  In call (prelude f ++ [cp_call (timestamp (run_all (prelude f) w_configured));
                         cat_call]) ->
  file_read boot_config (os_run call w').2 = file_read boot_config w'.
Proof.
  intros Hin.
  assert (In call [raspi_call "do_spi"; raspi_call "do_i2c";
                   cp_call "20240101_120000"; cat_call]) as Hcall.
  { destruct f; simpl in Hin; vm_compute in Hin |- *; tauto. }
  clear Hin. simpl in Hcall.
  destruct Hcall as [<-|[<-|[<-|[<-|[]]]]]; simpl; unfold Sim.run; simpl.
  all: destruct (Sim.fault_of _ (Sim.faults w')); simpl.
  all: try reflexivity.
  all: unfold Sim.sudo; simpl.
  - destruct (Sim.files w' !! V2.BOOT_CONFIG_FILE); simpl; [|reflexivity].
    apply lookup_insert_ne. discriminate.
  - destruct (Sim.files w' !! V2.BOOT_CONFIG_FILE); reflexivity.
Defined.

Lemma sim_configured_reads (f : Feature) :
  reads (trace_of (procedure f) w_configured) configured_text.
Proof.
  exists (mkCompleted 0 configured_text "").
  split; [|reflexivity]. destruct f; vm_compute; tauto.
Defined.

Lemma sim_configured_markers (f : Feature) (m : string) :
  In m (markers f) -> contains m configured_text = true.
Proof.
  destruct f; simpl; intros Hm;
    repeat (destruct Hm as [<-|Hm]; [vm_compute; reflexivity|]); destruct Hm.
Defined.

(** X25, on a boot configuration that has every directive. *)
Lemma present_directives_left_alone_witness :
  writes_of (trace_of (procedure SPI) w_configured) = [] /\
  In (EvLog INFO (present_msg SPI)) (trace_of (procedure SPI) w_configured) /\
  file_read boot_config (world_after (procedure SPI) w_configured)
    = Some configured_text.
Proof.
  destruct (@present_directives_left_alone Sim.system SPI w_configured
              configured_text (sim_configured_reads SPI)) as [_ Hall].
  destruct (Hall (sim_configured_markers SPI)) as (Hw & _ & Hlog & _ & Hframe).
  split; [exact Hw|split; [exact Hlog|]].
  rewrite Hframe; [reflexivity|].
  intros call w'. apply (sim_reads_keep_boot_config SPI).
Defined.



(** The same for the other two procedures. *)
Example edit_twice_i2c_meshadv :
  content_after fresh_text (trace_of (procedure I2C) w_fresh)
    = fresh_text +:+ V2.i2c_block /\
  writes_of (trace_of (procedure I2C) (world_after (procedure I2C) w_fresh)) = [] /\
  content_after fresh_text (trace_of (procedure MeshAdvMini) w_fresh)
    = fresh_text +:+ V2.meshadv_config /\
  writes_of (trace_of (procedure MeshAdvMini)
               (world_after (procedure MeshAdvMini) w_fresh)) = [].
Proof. repeat split; vm_compute; reflexivity. Qed.

End Simulated.

(** ** Further runs on the simulated system *)

Section SimulatedRuns.

#[local] Existing Instance Sim.system.

(** X2, on a package manager that fails without lock contention. *)
Lemma safe_apt_command_first_attempt_witness :
  Tk.safe_apt_command ["sudo"; "apt"; "install"; "meshtasticd"] 120 None
    w_apt_missing =
  (Ok (Some (mkCompleted 1 "" missing_stderr)),
   Sim.mkSim ∅ [] "20240101_120000" [] [],
   [EvRun (Tk.apt_call ["sudo"; "apt"; "install"; "meshtasticd"] 120 None)
      (Completed (mkCompleted 1 "" missing_stderr))]).
Proof.
  apply (@safe_apt_command_first_attempt Sim.system
           ["sudo"; "apt"; "install"; "meshtasticd"] 120 None w_apt_missing);
    vm_compute; reflexivity.
Defined.

(** X3, on a package manager that stays locked. *)
Lemma safe_apt_command_exhausted_witness :
  result_of (Tk.safe_apt_command ["sudo"; "apt"; "update"] 120 None) w_apt_locked
    = Ok (Some (mkCompleted 1 "" lock_stderr)) /\
  world_after (Tk.safe_apt_command ["sudo"; "apt"; "update"] 120 None) w_apt_locked
    = Sim.mkSim ∅ [] "20240101_120000" [] [] /\
  recoveries (trace_of (Tk.safe_apt_command ["sudo"; "apt"; "update"] 120 None)
                w_apt_locked) = 2%nat /\
  last (trace_of (Tk.safe_apt_command ["sudo"; "apt"; "update"] 120 None)
          w_apt_locked)
    = Some (EvLog ERROR "❌ Failed to acquire apt lock after all retries").
Proof.
  apply (@safe_apt_command_exhausted Sim.system
           ["sudo"; "apt"; "update"] 120 None
           w_apt_locked
           (Sim.mkSim ∅ [] "20240101_120000" []
              [Sim.exit_1 lock_stderr; Sim.exit_1 lock_stderr])
           (Sim.mkSim ∅ [] "20240101_120000" [] [Sim.exit_1 lock_stderr])
           (Sim.mkSim ∅ [] "20240101_120000" [] [])
           (mkCompleted 1 "" lock_stderr) (mkCompleted 1 "" lock_stderr)
           (mkCompleted 1 "" lock_stderr));
    vm_compute; reflexivity.
Defined.

(** X8, on a boot configuration without the SPI directives. *)
Lemma enable_spi_worker_writes_witness :
  writes_of (trace_of Tk.enable_spi_worker w_fresh) =
  if (spi_edit fresh_text).2 then [(spi_edit fresh_text).1] else [].
Proof.
  apply (@enable_spi_worker_writes Sim.system w_fresh (mkCompleted 0 fresh_text ""));
    vm_compute; tauto.
Defined.

(** X9, for the SPI procedure on a boot configuration without its
    directives. *)
Lemma procedure_commands_witness :
  commands (trace_of (procedure SPI) w_fresh) =
    prelude SPI ++ [cp_call (timestamp (run_all (prelude SPI) w_fresh)); cat_call] ++
    (if (edit SPI fresh_text).2 then [tee_call (edit SPI fresh_text).1] else []).
Proof.
  apply (@procedure_commands Sim.system SPI w_fresh fresh_text).
  exists (mkCompleted 0 fresh_text ""). vm_compute. tauto.
Defined.

(** X11, for the MeshAdv Mini block on a Raspberry Pi with the HAT. *)
Lemma edit_enables_status_witness :
  status MeshAdvMini pi5_meshadv w_meshadv_done = true.
Proof.
  apply (@edit_enables_status Sim.system MeshAdvMini pi5_meshadv w_meshadv_done
           fresh_text).
  - reflexivity.
  - vm_compute. reflexivity.
  - intros _. vm_compute. reflexivity.
Defined.

(** X12, on a file that has the marker comment only. *)
Lemma meshadv_marker_blocks_edit_witness :
  edit MeshAdvMini marker_text = (marker_text, false) /\
  V2.check_hat_specific_status pi5_meshadv w_marker_only = false.
Proof.
  apply (@meshadv_marker_blocks_edit Sim.system pi5_meshadv w_marker_only
           marker_text); vm_compute; reflexivity.
Defined.

(** X13, after the SPI edit. *)
Lemma enabled_spi_click_is_noop_witness :
  V2.handle_enable_spi w_spi_done [] V2.initial
    = (V2.initial, [EvLog INFO "SPI is already enabled"]) /\
  result_of Tk.handle_enable_spi w_spi_done = Ok None /\
  commands (trace_of Tk.handle_enable_spi w_spi_done) = [].
Proof.
  apply (@enabled_spi_click_is_noop Sim.system w_spi_done fresh_text [] V2.initial).
  - vm_compute. reflexivity.
  - vm_compute. reflexivity.
Defined.

(** X18, on a Raspberry Pi 5 whose boot configuration has no UART
    directive. *)
Lemma gps_commands_witness :
  commands (trace_of (V2._enable_gps_uart pi5_meshadv) w_fresh) =
    [cp_call (timestamp w_fresh); cat_call] ++
    (if (gps_edit (V2.is_pi5 pi5_meshadv) fresh_text).2
     then [tee_call (gps_edit (V2.is_pi5 pi5_meshadv) fresh_text).1] else []) ++
    [serial_call].
Proof.
  apply (@gps_commands Sim.system pi5_meshadv w_fresh fresh_text
           (V2.mkOperationResult true "GPS/UART enabled successfully" "")).
  - exists (mkCompleted 0 fresh_text ""). vm_compute. tauto.
  - vm_compute. reflexivity.
Defined.

(** X19, when [raspi-config] refuses to disable the serial console. *)
Lemma gps_serial_console_not_fatal_witness :
  (exists res, result_of (V2._enable_gps_uart pi5_meshadv) w_no_serial = Ok res /\
               V2.success res = true) /\
  In (EvLog WARNING " Failed to disable serial console")
     (trace_of (V2._enable_gps_uart pi5_meshadv) w_no_serial).
Proof.
  apply (@gps_serial_console_not_fatal Sim.system pi5_meshadv w_no_serial
           (mkCompleted 1 "" "raspi-config: command failed")).
  vm_compute. tauto.
Defined.

(** X20, two runs in a row on a Raspberry Pi 5. *)
Lemma gps_edit_idempotent_witness :
  content_after fresh_text (trace_of (V2._enable_gps_uart pi5_meshadv) w_fresh)
    = (gps_edit (V2.is_pi5 pi5_meshadv) fresh_text).1 /\
  writes_of (trace_of (V2._enable_gps_uart pi5_meshadv)
               (world_after (V2._enable_gps_uart pi5_meshadv) w_fresh)) = [].
Proof.
  apply (@gps_edit_idempotent Sim.system pi5_meshadv w_fresh
           (@world_after Sim.system _ (V2._enable_gps_uart pi5_meshadv) w_fresh)
           fresh_text).
  - exists (mkCompleted 0 fresh_text ""). vm_compute. tauto.
  - exists (mkCompleted 0 (gps_edit true fresh_text).1 ""). vm_compute. tauto.
Defined.

(** X21, after the GPS/UART edit for a Raspberry Pi 5. *)
Lemma gps_edit_enables_status_witness :
  V2.check_gps_uart_status pi5_meshadv w_gps_done = true.
Proof.
  apply (@gps_edit_enables_status Sim.system pi5_meshadv w_gps_done fresh_text).
  vm_compute. reflexivity.
Defined.

End SimulatedRuns.

(** X23, from the state in which no operation has been started. *)
Lemma same_id_operations_share_dialog_witness :
  V2._hide_progress_spinner "enable_spi"
    (V2._show_progress_spinner "enable_spi" V2.initial) = V2.initial /\
  V2._show_progress_spinner "enable_spi"
    (V2._show_progress_spinner "enable_spi" V2.initial)
    = V2._show_progress_spinner "enable_spi" V2.initial /\
  V2._hide_progress_spinner "enable_spi"
    (V2._show_progress_spinner "enable_spi"
       (V2._show_progress_spinner "enable_spi" V2.initial)) = V2.initial.
Proof.
  apply (same_id_operations_share_dialog "enable_spi" V2.initial).
  apply not_elem_of_empty.
Defined.
